(** * cpp-cheat: the busy counter and the fork demonstrator

    A shallow embedding of [gdb/count_infinite.c] and [posix/fork.c], and the
    properties their specification states about them.

    Definitions come first:
    - [C]: the conventions both programs share (32-bit [int], the decimal
      conversion of [printf], the newline character);
    - [CountInfinite]: the counting loop of [gdb/count_infinite.c];
    - [Fork]: [posix/fork.c] as a program over system calls, the C library
      functions it uses, a small model of the kernel that runs it, and the
      table of its paths.

    Then the proofs: [CFacts], [CountInfiniteFacts] and [ForkFacts]. *)

From Stdlib Require Import ZArith NArith String Ascii List Lia Bool.
From Stdlib Require Import DecimalString DecimalZ.
Import ListNotations.

Open Scope Z_scope.

(* ================================================================== *)
(** * C conventions *)
(* ================================================================== *)

Module C.

(** [int] and [pid_t] are 32 bits wide, two's complement. *)
Definition INT_MAX : Z := 2147483647.
Definition INT_MIN : Z := -2147483648.

(** The value an arithmetic result takes once it is stored in an [int]:
    reduction modulo 2^32 into [INT_MIN .. INT_MAX]. *)
Definition to_int (z : Z) : Z := (z + 2 ^ 31) mod 2 ^ 32 - 2 ^ 31.

(** The newline character, as a one-character string. *)
Definition nl : string := String (ascii_of_nat 10) EmptyString.

(** The conversions [%d] and [%jd] of [printf]: signed decimal. *)
Definition dec (z : Z) : string := NilZero.string_of_int (Z.to_int z).

End C.

(* ================================================================== *)
(** * gdb/count_infinite.c *)
(* ================================================================== *)

Module CountInfinite.
Import C.

(** [static const int PERIOD = 100000000;] *)
Definition PERIOD : Z := 100000000.

(** The state of [main]: the local [i] and the lines [printf] has sent to
    standard output so far, oldest first. *)
Record state : Type := mkState { i : Z; stdout : list string }.

(** [int i = 0;] with nothing printed yet. *)
Definition init : state := mkState 0 [].

(** [printf("%d\n", v)] *)
Definition printf_d (v : Z) : string := (dec v ++ nl)%string.

(** The loop body:
    [i++; if (i % PERIOD == 0) printf("%d\n", i / PERIOD);]
    The increment is stored in an [int]; [%] and [/] of C truncate towards
    zero ([Z.rem], [Z.quot]).  C leaves [i++] undefined when [i] holds
    [INT_MAX]: the embedding stores the two's-complement wrap there, as the
    unoptimised build does, and is exact for every build only as long as
    the counter has not passed [INT_MAX]. *)
Definition body (s : state) : state :=
  let i' := to_int (i s + 1) in
  if Z.rem i' PERIOD =? 0
  then mkState i' (stdout s ++ [printf_d (Z.quot i' PERIOD)])
  else mkState i' (stdout s).

(** The controlling expression of [while (1)]. *)
Definition guard (_ : state) : Z := 1.

(** One turn of the loop: [None] when the controlling expression is zero
    and the loop is left. *)
Definition step (s : state) : option state :=
  if guard s =? 0 then None else Some (body s).

(** The state after [n] turns of the loop, [None] once the loop is left. *)
Definition exec (n : N) : option state :=
  N.iter n (fun o => match o with Some s => step s | None => None end)
         (Some init).

(** [n] increments applied to a state. *)
Definition run_from (s : state) (n : N) : state := N.iter n body s.

Definition run (n : N) : state := run_from init n.

(** The lines ["1\n"; "2\n"; ...; "q\n"]. *)
Definition lines (q : nat) : list string :=
  map (fun j => printf_d (Z.of_nat j)) (seq 1 q).

End CountInfinite.

(* ================================================================== *)
(** * posix/fork.c *)
(* ================================================================== *)

Module Fork.
Import C.

(** ** What [common.h] brings in *)

(** [<stdlib.h>] *)
Definition EXIT_SUCCESS : Z := 0.
Definition EXIT_FAILURE : Z := 1.

(** Modelled from the spec: [common.h] is not among the sources; the two
    predicates on the "opaque bit-packed" exit status are the macros it
    takes from [<sys/wait.h>], here with the layout of Linux: the low seven
    bits hold the terminating signal (zero for a normal termination), bit 7
    the core-dump flag, bits 8 to 15 the exit code. *)
Definition WIFEXITED (status : Z) : bool := Z.land status 127 =? 0.
Definition WEXITSTATUS (status : Z) : Z := Z.shiftr (Z.land status 65280) 8.

(** ** The kernel's side of a terminated process *)

(** How a process ended, as the kernel records it. *)
Inductive termination : Type :=
| Exited (code : Z)
| Signaled (sig : Z) (core : bool).

Definition SIGABRT : Z := 6.

(** The status word [wait] stores for a terminated child (same layout as
    the macros above). *)
Definition wstatus (t : termination) : Z :=
  match t with
  | Exited code => Z.shiftl (Z.land code 255) 8
  | Signaled sig core => Z.lor (Z.land sig 127) (if core then 128 else 0)
  end.

(** Signals are numbered from 1 to 64; exit codes are whatever [exit] was
    given. *)
Definition wf_termination (t : termination) : Prop :=
  match t with
  | Exited _ => True
  | Signaled sig _ => 1 <= sig <= 64
  end.

(** ** System calls and programs *)

Inductive fd : Type := STDOUT | STDERR.

(** The requests a process makes to its environment, indexed by the type
    of the answer.  [SysWait] answers with the status it stored, or [None]
    when there is no child to wait for.  [Strerror] is the text describing
    [errno], which [perror] appends to its argument. *)
Inductive call : Type -> Type :=
| Getpid : call Z
| Getppid : call Z
| SysFork : call Z
| SysWait : call (option Z)
| SysWrite (f : fd) (text : string) : call unit
| Strerror : call string.

(** A program is a tree of requests: each node waits for the answer and
    continues with it. *)
Inductive prog (R : Type) : Type :=
| Ret (r : R)
| Vis {X : Type} (c : call X) (k : X -> prog R).

Arguments Ret {R} r.
Arguments Vis {R X} c k.

Fixpoint bindP {A B : Type} (p : prog A) (f : A -> prog B) : prog B :=
  match p with
  | Ret a => f a
  | Vis c k => Vis c (fun x => bindP (k x) f)
  end.

(** ** The memory image of a process *)

(** The automatic variables of [main]. *)
Record locals : Type := mkLocals {
  v_status : Z;
  v_i : Z;
  v_pid : Z;
  v_ppid : Z
}.

(** What [fork] duplicates: the variables and the buffer of [stdout] (text
    printed and not yet written to the descriptor). *)
Record image : Type := mkImage {
  vars : locals;
  stdout_buf : string
}.

Definition set_status (v : Z) (s : image) : image :=
  mkImage (mkLocals v (v_i (vars s)) (v_pid (vars s)) (v_ppid (vars s)))
          (stdout_buf s).
Definition set_i (v : Z) (s : image) : image :=
  mkImage (mkLocals (v_status (vars s)) v (v_pid (vars s)) (v_ppid (vars s)))
          (stdout_buf s).
Definition set_pid (v : Z) (s : image) : image :=
  mkImage (mkLocals (v_status (vars s)) (v_i (vars s)) v (v_ppid (vars s)))
          (stdout_buf s).
Definition set_ppid (v : Z) (s : image) : image :=
  mkImage (mkLocals (v_status (vars s)) (v_i (vars s)) (v_pid (vars s)) v)
          (stdout_buf s).
Definition set_buf (b : string) (s : image) : image :=
  mkImage (vars s) b.

(** ** The monad of C statements *)

(** How a process ends itself: [exit(code)] (or returning [code] from
    [main]), or [abort()]. *)
Inductive ending : Type :=
| Exit (code : Z)
| Abort.

(** A statement either completes with a value or ends the process. *)
Inductive res (A : Type) : Type :=
| Val (a : A)
| Halt (h : ending).

Arguments Val {A} a.
Arguments Halt {A} h.

Definition M (A : Type) : Type := image -> prog (res A * image).

Definition ret {A : Type} (a : A) : M A := fun s => Ret (Val a, s).

Definition bind {A B : Type} (m : M A) (f : A -> M B) : M B :=
  fun s =>
    bindP (m s)
          (fun rs => match fst rs with
                     | Val a => f a (snd rs)
                     | Halt h => Ret (Halt h, snd rs)
                     end).

Definition halt {A : Type} (h : ending) : M A := fun s => Ret (Halt h, s).

Definition sys {X : Type} (c : call X) : M X :=
  fun s => Vis c (fun x => Ret (Val x, s)).

Definition get {A : Type} (f : locals -> A) : M A :=
  fun s => Ret (Val (f (vars s)), s).

Definition modify (f : image -> image) : M unit :=
  fun s => Ret (Val tt, f s).

Declare Scope c_scope.
Delimit Scope c_scope with c.
Notation "x <- m ;; k" := (bind m (fun x => k))
  (at level 61, m at next level, right associativity) : c_scope.
Notation "m ;; k" := (bind m (fun _ => k))
  (at level 61, right associativity) : c_scope.
Open Scope c_scope.
Open Scope string_scope.
Open Scope Z_scope.

(** ** The C library *)

(** Does the character [c] occur in [s]. *)
Fixpoint occurs (c : ascii) (s : string) : bool :=
  match s with
  | EmptyString => false
  | String x r => Ascii.eqb x c || occurs c r
  end.

Definition is_nl (c : ascii) : bool := Ascii.eqb c (ascii_of_nat 10).

Definition has_nl (s : string) : bool := occurs (ascii_of_nat 10) s.

(** [cut s] splits [s] after its last newline: the complete lines (if
    there is any) and the unfinished rest. *)
Fixpoint cut (s : string) : option string * string :=
  match s with
  | EmptyString => (None, EmptyString)
  | String c r =>
      match cut r with
      | (Some w, p) => (Some (String c w), p)
      | (None, p) =>
          if is_nl c then (Some (String c EmptyString), p)
          else (None, String c p)
      end
  end.

(** [stdout] flushes at newlines (fork.c, "fork and stream buffering"):
    [printf] appends its text to the buffer and writes out what the buffer
    holds up to the last newline, keeping the rest.  This is [stdout] on a
    terminal, the case the header of fork.c describes; on a pipe or a file
    the stream is fully buffered and writes at [fflush] and [exit] only,
    which the embedding does not cover. *)
Definition printf (text : string) : M unit :=
  fun s =>
    match cut (stdout_buf s ++ text) with
    | (Some w, p) => Vis (SysWrite STDOUT w) (fun _ => Ret (Val tt, set_buf p s))
    | (None, p) => Ret (Val tt, set_buf p s)
    end.

(** [fflush(stdout)] writes the buffer out if it holds anything;
    [stderr] is not buffered, flushing it does nothing. *)
Definition fflush (f : fd) : M unit :=
  fun s =>
    match f with
    | STDOUT =>
        match stdout_buf s with
        | EmptyString => Ret (Val tt, s)
        | b => Vis (SysWrite STDOUT b) (fun _ => Ret (Val tt, set_buf "" s))
        end
    | STDERR => Ret (Val tt, s)
    end.

(** What [perror(msg)] prints: [msg], a colon, the description of [errno],
    a newline. *)
Definition diagnostic (msg why : string) : string :=
  msg ++ ": " ++ why ++ nl.

(** [perror(msg)] writes on [stderr]. *)
Definition perror (msg : string) : M unit :=
  why <- sys Strerror ;;
  sys (SysWrite STDERR (diagnostic msg why)).

(** [exit(code)] flushes [stdout] and ends the process. *)
Definition exit {A : Type} (code : Z) : M A :=
  fflush STDOUT ;; halt (Exit code).

(** [abort()] ends the process at once; the buffer is not flushed. *)
Definition abort {A : Type} : M A := halt Abort.

(** What a failed [assert(expr)] prints about the expression.  The C
    library puts the place of the call in front of it (program, file, line,
    function), in a format of its own: that part is left out, so what is
    proved of this text is only that the report holds it. *)
Definition assertion_failed (expr : string) : string :=
  "Assertion `" ++ expr ++ "' failed." ++ nl.

(** [assert(expr)], with [expr] as written and its value: a failed
    assertion reports on [stderr] and aborts. *)
Definition assert (expr : string) (holds : bool) : M unit :=
  if holds then ret tt
  else sys (SysWrite STDERR (assertion_failed expr)) ;; abort.

(** ** fork.c *)

(** [void print_pid(char *msg)].  The casts to [intmax_t] keep the value.
    C leaves open which of the two arguments of the second [printf] is
    evaluated first; the embedding asks [getpid()] before [getppid()].
    Each call answers the same either way, so the line printed is the
    same. *)
Definition print_pid (msg : string) : M unit :=
  printf (msg ++ " ") ;;
  pid <- sys Getpid ;;
  ppid <- sys Getppid ;;
  printf ("pid=" ++ dec pid ++ " ppid=" ++ dec ppid ++ nl).

(** The condition of the assertion after [wait]:
    [status == WEXITSTATUS(EXIT_SUCCESS)]. *)
Definition wait_check (status : Z) : bool :=
  status =? WEXITSTATUS EXIT_SUCCESS.

(** The branch taken where [fork] returned 0 (fork.c:104-126). *)
Definition child_branch : M unit :=
  print_pid "inside (pid == 0)" ;;
  r <- sys Getpid ;;
  modify (set_pid r) ;;
  pid <- get v_pid ;;
  (if pid =? -1 then perror "getpid" ;; exit EXIT_FAILURE else ret tt) ;;
  pid <- get v_pid ;;
  ppid <- get v_ppid ;;
  assert "pid != ppid" (negb (pid =? ppid)) ;;
  i <- get v_i ;;
  modify (set_i (to_int (i + 1))) ;;
  exit EXIT_SUCCESS.

(** [int main(void)] *)
Definition main : M Z :=
  modify (set_i 0) ;;
  r <- sys Getpid ;;
  modify (set_ppid r) ;;
  ppid <- get v_ppid ;;
  (if ppid =? -1 then perror "getpid" ;; exit EXIT_FAILURE else ret tt) ;;
  print_pid "before fork" ;;
  fflush STDOUT ;;
  fflush STDERR ;;
  r <- sys SysFork ;;
  modify (set_pid r) ;;
  pid <- get v_pid ;;
  (if pid =? -1 then perror "fork" ;; assert "false" false else ret tt) ;;
  print_pid "after fork" ;;
  pid <- get v_pid ;;
  (if pid =? 0 then child_branch else ret tt) ;;
  print_pid "after (pid == 0)" ;;
  st <- sys SysWait ;;
  (match st with Some v => modify (set_status v) | None => ret tt end) ;;
  status <- get v_status ;;
  (if WIFEXITED status
   then assert "status == WEXITSTATUS(EXIT_SUCCESS)" (wait_check status)
   else perror "execl abnormal exit" ;; assert "false" false) ;;
  print_pid "after wait" ;;
  pid <- get v_pid ;;
  printf ("fork() return = " ++ dec pid ++ nl) ;;
  i <- get v_i ;;
  assert "i == 0" (i =? 0) ;;
  ret EXIT_SUCCESS.

(** A process: [main] is entered with whatever the stack holds in its
    variables and an empty buffer; returning from it is [exit]. *)
Definition initial (garbage : locals) : image := mkImage garbage "".

Definition process (garbage : locals) : prog (ending * image) :=
  bindP ((code <- main ;; exit (A := Empty_set) code) (initial garbage))
        (fun rs => match fst rs with
                   | Val a => match a with end
                   | Halt h => Ret (h, snd rs)
                   end).

(** ** The kernel *)

(** What [getpid] and [getppid] answer in a process.  The program cannot
    change it. *)
Record ident : Type := mkIdent { id_pid : Z; id_ppid : Z }.

(** The environment of one run: the answers of the operating system. *)
Record os : Type := mkOs {
  os_self : ident;       (* the identity of the process that enters [main] *)
  os_fork : Z;           (* what [fork] answers in that process *)
  os_child : ident;      (* the identity of the process [fork] creates *)
  os_core : bool;        (* does a process killed by a signal dump core *)
  os_strerror : string   (* the text of [errno] after a failed call *)
}.

(** What a process asked and wrote. *)
Inductive event : Type :=
| EvGetpid (r : Z)
| EvGetppid (r : Z)
| EvFork (r : Z)
| EvWait (r : option Z)
| EvWrite (f : fd) (text : string).

(** A process that has run to its end. *)
Record finished : Type := mkFinished {
  f_end : ending;
  f_image : image;
  f_log : list event
}.

(** The kernel's view of a running process: its log so far (oldest
    first), the process it created, and the status a [wait] will store. *)
Record kernel : Type := mkKernel {
  k_log : list event;
  k_kid : option finished;
  k_zombie : option Z
}.

Definition boot (log : list event) : kernel := mkKernel log None None.

Definition record (ev : event) (st : kernel) : kernel :=
  mkKernel (k_log st ++ [ev])%list (k_kid st) (k_zombie st).

(** The process that entered [main] is the root; the one [fork] made is
    not. *)
Definition me (e : os) (root : bool) : ident :=
  if root then os_self e else os_child e.

(** [exit(code)] ends a process normally with the low byte of [code];
    [abort()] kills it with [SIGABRT]. *)
Definition termination_of (e : os) (h : ending) : termination :=
  match h with
  | Exit code => Exited code
  | Abort => Signaled SIGABRT (os_core e)
  end.

(** Running a program.  [fork] succeeds once, in the root, unless the
    environment refuses it: the new process continues from the same point
    with a copy of the image, seeing 0 as the result, and runs to its end;
    the creator sees [os_fork e].  Everywhere else [fork] answers -1.
    [wait] stores the status of the terminated child and forgets it;
    without a child it fails and stores nothing.  With a child to wait
    for, [wait] does not fail here. *)
Fixpoint exec (e : os) (root : bool) (p : prog (ending * image))
         (st : kernel) {struct p} : finished * option finished :=
  match p with
  | Ret (h, s) => (mkFinished h s (k_log st), k_kid st)
  | Vis c k =>
      match c in call X
            return (X -> prog (ending * image)) -> finished * option finished
      with
      | Getpid => fun k =>
          let r := id_pid (me e root) in
          exec e root (k r) (record (EvGetpid r) st)
      | Getppid => fun k =>
          let r := id_ppid (me e root) in
          exec e root (k r) (record (EvGetppid r) st)
      | SysFork => fun k =>
          match k_kid st with
          | None =>
              if root && negb (os_fork e =? -1) then
                let kid := fst (exec e false (k 0) (boot [EvFork 0])) in
                exec e root (k (os_fork e))
                     (mkKernel (k_log st ++ [EvFork (os_fork e)])%list
                               (Some kid)
                               (Some (wstatus (termination_of e (f_end kid)))))
              else exec e root (k (-1)) (record (EvFork (-1)) st)
          | Some _ => exec e root (k (-1)) (record (EvFork (-1)) st)
          end
      | SysWait => fun k =>
          match k_zombie st with
          | Some status =>
              exec e root (k (Some status))
                   (mkKernel (k_log st ++ [EvWait (Some status)])%list
                             (k_kid st) None)
          | None => exec e root (k None) (record (EvWait None) st)
          end
      | SysWrite f text => fun k =>
          exec e root (k tt) (record (EvWrite f text) st)
      | Strerror => fun k =>
          exec e root (k (os_strerror e)) st
      end k
  end.

(** One run of the program: the process that entered [main] and, if
    [fork] succeeded, the process it created. *)
Record outcome : Type := mkOutcome {
  parent : finished;
  child : option finished
}.

Definition run (e : os) (garbage : locals) : outcome :=
  let r := exec e true (process garbage) (boot []) in
  mkOutcome (fst r) (snd r).

(** ** Reading a log *)

(** What a process wrote to a descriptor, in order. *)
Fixpoint written (f : fd) (log : list event) : list string :=
  match log with
  | [] => []
  | EvWrite STDOUT text :: l =>
      match f with STDOUT => text :: written f l | STDERR => written f l end
  | EvWrite STDERR text :: l =>
      match f with STDERR => text :: written f l | STDOUT => written f l end
  | _ :: l => written f l
  end%list.

(** The line [print_pid msg] produces. *)
Definition checkpoint (tag : string) (pid ppid : Z) : string :=
  tag ++ " pid=" ++ dec pid ++ " ppid=" ++ dec ppid ++ nl.

(** The line of the last [printf] of [main]. *)
Definition fork_return (pid : Z) : string :=
  "fork() return = " ++ dec pid ++ nl.

(** A line is tagged [tag] when it starts with it. *)
Definition tagged (tag line : string) : bool := prefix tag line.

Definition count_tagged (tag : string) (l : list string) : nat :=
  length (filter (tagged tag) l).

(** The shared terminal shows the lines of the two processes in some
    interleaving that keeps the order of each.  (The parent's [wait] rules
    some interleavings out; what holds of all of them holds of the ones
    that remain.) *)
Inductive interleaving {A : Type} : list A -> list A -> list A -> Prop :=
| il_nil : interleaving [] [] []
| il_left x l r t : interleaving l r t -> interleaving (x :: l) r (x :: t)
| il_right x l r t : interleaving l r t -> interleaving l (x :: r) (x :: t).

Definition log_of (c : option finished) : list event :=
  match c with Some f => f_log f | None => [] end.

Definition terminal (o : outcome) (t : list string) : Prop :=
  interleaving (written STDOUT (f_log (parent o)))
               (written STDOUT (log_of (child o))) t.

(** The write that comes right before the first [wait] of a log. *)
Fixpoint before_wait (log : list event) : option string :=
  match log with
  | EvWrite _ text :: ((EvWait _ :: _) as l) => Some text
  | _ :: l => before_wait l
  | [] => None
  end%list.

(** How often a log asks for a new process, and how often it waits. *)
Definition is_fork (ev : event) : bool :=
  match ev with EvFork _ => true | _ => false end.

Definition is_wait (ev : event) : bool :=
  match ev with EvWait _ => true | _ => false end.

Definition is_getpid (ev : event) : bool :=
  match ev with EvGetpid _ => true | _ => false end.

Definition is_getppid (ev : event) : bool :=
  match ev with EvGetppid _ => true | _ => false end.

Definition calls (what : event -> bool) (log : list event) : nat :=
  length (filter what log).



(** The tags of the checkpoints of [main]. *)
Definition tags : list string :=
  ["before fork"; "after fork"; "inside (pid == 0)"; "after (pid == 0)";
   "after wait"].

(** ** The terminal in time *)

(** [until stop log]: the events before the first one that satisfies
    [stop], and the rest of the log from that event on. *)
Fixpoint until (stop : event -> bool) (log : list event)
  : list event * list event :=
  match log with
  | [] => ([], [])
  | ev :: l =>
      if stop ev then ([], ev :: l)
      else let (a, b) := until stop l in (ev :: a, b)
  end%list.

(** What the terminal can show, the order [fork] and [wait] impose taken
    into account: first what the parent wrote before [fork]; then, in any
    interleaving, what it wrote from there up to its [wait] and what the
    child wrote; last what the parent wrote once [wait] had returned. *)
Definition screen (o : outcome) (t : list string) : Prop :=
  let (a, rest) := until is_fork (f_log (parent o)) in
  let (b, c) := until is_wait rest in
  exists m,
    interleaving (written STDOUT b) (written STDOUT (log_of (child o))) m
    /\ t = (written STDOUT a ++ m ++ written STDOUT c)%list.

(** ** Sample environments *)

(** The run shown in the header of fork.c: process 16026, child of 14381,
    is given the child 16031. *)
Definition header_os : os :=
  mkOs (mkIdent 16026 14381) 16031 (mkIdent 16031 16026) true
       "Resource temporarily unavailable".


(** The same machine refusing to create a process. *)
Definition no_fork_os : os :=
  mkOs (mkIdent 16026 14381) (-1) (mkIdent 16031 16026) true
       "Resource temporarily unavailable".

(** The same machine refusing to tell the new process its id. *)
Definition no_child_pid_os : os :=
  mkOs (mkIdent 16026 14381) 16031 (mkIdent (-1) 16026) true
       "Resource temporarily unavailable".

(** A machine that gives the new process the id of its creator. *)
Definition same_pid_os : os :=
  mkOs (mkIdent 16026 14381) 16031 (mkIdent 16026 16026) true
       "Resource temporarily unavailable".

(** Some stack contents at the entry of [main]. *)
Definition junk : locals := mkLocals 7 8 9 10.

(** ** The paths of a run, spelled out *)

(** What [print_pid tag] leaves in the log of a process. *)
Definition asked (tag : string) (who : ident) : list event :=
  [EvGetpid (id_pid who); EvGetppid (id_ppid who);
   EvWrite STDOUT (checkpoint tag (id_pid who) (id_ppid who))].

(** The log up to the call of [fork]. *)
Definition prologue (e : os) : list event :=
  EvGetpid (id_pid (os_self e)) :: asked "before fork" (os_self e).

(** The log of a process that entered the branch [pid == 0], up to the
    second [getpid]. *)
Definition in_branch (who : ident) : list event :=
  (asked "after fork" who ++ asked "inside (pid == 0)" who
   ++ [EvGetpid (id_pid who)])%list.

(** The process [fork] created, by what [getpid] answers in it. *)
Definition kid_path (e : os) (g : locals) : finished :=
  let p := id_pid (os_self e) in
  let c := id_pid (os_child e) in
  let log := (EvFork 0 :: in_branch (os_child e))%list in
  if c =? -1 then
    mkFinished (Exit EXIT_FAILURE)
               (mkImage (mkLocals (v_status g) 0 (-1) p) "")
               (log ++ [EvWrite STDERR (diagnostic "getpid" (os_strerror e))])
  else if c =? p then
    mkFinished Abort
               (mkImage (mkLocals (v_status g) 0 c p) "")
               (log ++ [EvWrite STDERR (assertion_failed "pid != ppid")])
  else
    mkFinished (Exit EXIT_SUCCESS)
               (mkImage (mkLocals (v_status g) 1 c p) "")
               log.

(** The status [wait] stores in the parent: that of the child's end. *)
Definition stored (e : os) (g : locals) : Z :=
  wstatus (termination_of e (f_end (kid_path e g))).

(** Does the parent get past the assertion that follows [wait]. *)
Definition passes (e : os) (g : locals) : bool :=
  WIFEXITED (stored e g) && wait_check (stored e g).

(** The process that entered [main]. *)
Definition parent_path (e : os) (g : locals) : finished :=
  let p := id_pid (os_self e) in
  let f := os_fork e in
  let why := os_strerror e in
  if p =? -1 then
    mkFinished (Exit EXIT_FAILURE)
               (mkImage (mkLocals (v_status g) 0 (v_pid g) (-1)) "")
               [EvGetpid (-1); EvWrite STDERR (diagnostic "getpid" why)]
  else if f =? -1 then
    mkFinished Abort
               (mkImage (mkLocals (v_status g) 0 (-1) p) "")
               (prologue e
                ++ [EvFork (-1); EvWrite STDERR (diagnostic "fork" why);
                    EvWrite STDERR (assertion_failed "false")])
  else if f =? 0 then
    mkFinished Abort
               (mkImage (mkLocals (v_status g) 0 p p) "")
               (prologue e ++ EvFork 0 :: in_branch (os_self e)
                ++ [EvWrite STDERR (assertion_failed "pid != ppid")])
  else
    let status := stored e g in
    let log := (prologue e ++ EvFork f :: asked "after fork" (os_self e)
                ++ asked "after (pid == 0)" (os_self e)
                ++ [EvWait (Some status)])%list in
    let img := mkImage (mkLocals status 0 f p) "" in
    if passes e g then
      mkFinished (Exit EXIT_SUCCESS) img
                 (log ++ asked "after wait" (os_self e)
                  ++ [EvWrite STDOUT (fork_return f)])
    else if WIFEXITED status then
      mkFinished Abort img
                 (log ++ [EvWrite STDERR
                            (assertion_failed
                               "status == WEXITSTATUS(EXIT_SUCCESS)")])
    else
      mkFinished Abort img
                 (log ++ [EvWrite STDERR (diagnostic "execl abnormal exit" why);
                          EvWrite STDERR (assertion_failed "false")])%list.

(** Was a process created: [getpid] answered and [fork] was granted. *)
Definition forked (e : os) : bool :=
  negb (id_pid (os_self e) =? -1) && negb (os_fork e =? -1).

Definition paths (e : os) (g : locals) : outcome :=
  mkOutcome (parent_path e g)
            (if forked e then Some (kid_path e g) else None).

End Fork.

(* ================================================================== *)
(** * Facts about the C conventions *)
(* ================================================================== *)

Module CFacts.
Import C.

Lemma to_int_id (z : Z) : INT_MIN <= z <= INT_MAX -> to_int z = z.
Proof.
  unfold INT_MIN, INT_MAX, to_int. intros H.
  rewrite Z.mod_small; lia.
Qed.

Lemma to_int_range (z : Z) : INT_MIN <= to_int z <= INT_MAX.
Proof.
  unfold INT_MIN, INT_MAX, to_int.
  pose proof (Z.mod_pos_bound (z + 2 ^ 31) (2 ^ 32) ltac:(lia)). lia.
Qed.

(** [Z.to_int] never produces an empty digit sequence. *)
Lemma to_int_not_nil (z : Z) :
  Z.to_int z <> Decimal.Pos Decimal.Nil /\ Z.to_int z <> Decimal.Neg Decimal.Nil.
Proof.
  pose proof (DecimalZ.to_of (Z.to_int z)) as T.
  rewrite DecimalZ.of_to in T.
  split; intros E; rewrite E in T; discriminate T.
Qed.

(** Two integers with the same decimal text are equal. *)
Lemma dec_inj (a b : Z) : dec a = dec b -> a = b.
Proof.
  unfold dec. intros H.
  apply (f_equal NilZero.int_of_string) in H.
  rewrite !NilZero.isi in H by apply to_int_not_nil.
  injection H as H.
  rewrite <- (DecimalZ.of_to a), <- (DecimalZ.of_to b). now rewrite H.
Qed.

End CFacts.

(* ================================================================== *)
(** * The busy counter: properties *)
(* ================================================================== *)

Module CountInfiniteFacts.
Import C CFacts CountInfinite.

(** ** The first turns *)

Example three_turns : run 3 = mkState 3 [].
Proof. reflexivity. Qed.

Example first_line : printf_d 1 = ("1" ++ nl)%string.
Proof. reflexivity. Qed.

(** The turn that reaches the period prints the first line. *)
Example first_print :
  body (mkState 99999999 []) = mkState 100000000 [printf_d 1].
Proof. reflexivity. Qed.

(** C division and remainder truncate: a negative multiple of the period
    prints a negative quotient. *)
Example negative_print :
  body (mkState (-200000001) []) = mkState (-200000000) [printf_d (-2)].
Proof. reflexivity. Qed.

(** ** Iterating the body *)

Lemma run_from_succ (s : state) (n : N) :
  run_from s (N.succ n) = body (run_from s n).
Proof. unfold run_from. apply N.iter_succ. Qed.

Lemma run_from_add (s : state) (a b : N) :
  run_from s (a + b) = run_from (run_from s b) a.
Proof. unfold run_from. apply N.iter_add. Qed.

Lemma run_from_0 (s : state) : run_from s 0 = s.
Proof. reflexivity. Qed.

Lemma lines_succ (q : nat) :
  lines (S q) = (lines q ++ [printf_d (Z.of_nat (S q))])%list.
Proof.
  unfold lines. rewrite seq_S, map_app. reflexivity.
Qed.

Lemma lines_length (q : nat) : length (lines q) = q.
Proof. unfold lines. now rewrite length_map, length_seq. Qed.

Lemma lines_nth (q j : nat) :
  (j < q)%nat -> nth_error (lines q) j = Some (printf_d (Z.of_nat (S j))).
Proof.
  intros H. unfold lines.
  rewrite nth_error_map, nth_error_nth' with (d := O)
    by (now rewrite length_seq).
  rewrite seq_nth by assumption. reflexivity.
Qed.

(** The loop body on a counter that neither overflows nor reaches a
    multiple of the period: only the counter moves. *)
Lemma body_quiet (s : state) :
  INT_MIN <= i s + 1 <= INT_MAX ->
  (i s + 1) mod PERIOD <> 0 ->
  body s = mkState (i s + 1) (stdout s).
Proof.
  intros R M. unfold body.
  rewrite to_int_id by assumption.
  destruct (Z.eqb_spec (Z.rem (i s + 1) PERIOD) 0) as [E|E]; [|reflexivity].
  apply Z.rem_mod_eq_0 in E; [contradiction | discriminate].
Qed.

(** The loop body when the incremented counter is a positive multiple of
    the period: the quotient is printed. *)
Lemma body_print (s : state) :
  0 <= i s + 1 <= INT_MAX ->
  (i s + 1) mod PERIOD = 0 ->
  body s = mkState (i s + 1)
                   (stdout s ++ [printf_d ((i s + 1) / PERIOD)]).
Proof.
  intros R M. unfold body.
  rewrite to_int_id by (unfold INT_MIN; lia).
  rewrite Z.rem_mod_nonneg, M by (unfold PERIOD; lia).
  rewrite Z.quot_div_nonneg by (unfold PERIOD; lia).
  reflexivity.
Qed.

(** Closed form of the run while the counter has not overflowed: after
    [n] increments the counter is [n] and the output is the lines 1 to
    [n / PERIOD]. *)
Lemma run_small (n : N) :
  Z.of_N n <= INT_MAX ->
  run n = mkState (Z.of_N n) (lines (Z.to_nat (Z.of_N n / PERIOD))).
Proof.
  induction n as [|n IH] using N.peano_ind; intros H.
  - reflexivity.
  - unfold run in *. rewrite run_from_succ, IH by lia.
    rewrite N2Z.inj_succ in *. unfold Z.succ in *.
    assert (Hm : 0 <= Z.of_N n) by lia.
    set (m := Z.of_N n) in *.
    assert (HP : PERIOD = 100000000) by reflexivity.
    unfold INT_MAX in H.
    destruct (Z.eq_dec ((m + 1) mod PERIOD) 0) as [E|E].
    + rewrite body_print by (simpl; first [assumption | unfold INT_MAX; lia]). simpl.
      assert (Q : (m + 1) / PERIOD = m / PERIOD + 1).
      { pose proof (Z.div_mod (m + 1) PERIOD ltac:(lia)) as D1.
        pose proof (Z.div_mod m PERIOD ltac:(lia)) as D2.
        pose proof (Z.mod_pos_bound m PERIOD ltac:(lia)) as B2.
        rewrite E in D1. nia. }
      rewrite Q.
      assert (Q0 : 0 <= m / PERIOD) by (apply Z.div_pos; lia).
      replace (Z.to_nat (m / PERIOD + 1)) with (S (Z.to_nat (m / PERIOD)))
        by lia.
      rewrite lines_succ. do 3 f_equal.
      rewrite Nat2Z.inj_succ, Z2Nat.id by assumption. reflexivity.
    + rewrite body_quiet
        by (simpl; first [assumption | unfold INT_MIN, INT_MAX; lia]).
      simpl. f_equal. f_equal. f_equal.
      pose proof (Z.div_mod (m + 1) PERIOD ltac:(lia)) as D1.
      pose proof (Z.div_mod m PERIOD ltac:(lia)) as D2.
      pose proof (Z.mod_pos_bound m PERIOD ltac:(lia)) as B2.
      pose proof (Z.mod_pos_bound (m + 1) PERIOD ltac:(lia)) as B1.
      rewrite HP in *. nia.
Qed.

Lemma run_from_1 (s : state) : run_from s 1 = body s.
Proof. reflexivity. Qed.

(** From here on [run_from] is only used through the four equations
    above: unfolding it on the iteration counts below would not end. *)
#[local] Opaque run_from.

(** A stretch of [m] turns that neither overflows nor crosses a multiple
    of the period prints nothing. *)
Lemma run_from_quiet (s : state) (m : N) :
  INT_MIN <= i s ->
  i s + Z.of_N m <= INT_MAX ->
  i s mod PERIOD + Z.of_N m < PERIOD ->
  run_from s m = mkState (i s + Z.of_N m) (stdout s).
Proof.
  assert (HP : PERIOD = 100000000) by reflexivity.
  pose proof (Z.mod_pos_bound (i s) PERIOD ltac:(lia)) as B.
  induction m as [|m IH] using N.peano_ind; intros L U Q.
  - rewrite run_from_0. destruct s; simpl. f_equal. lia.
  - rewrite run_from_succ, IH by lia.
    rewrite body_quiet; simpl.
    + f_equal. lia.
    + lia.
    + replace (i s + Z.of_N m + 1) with (i s + (Z.of_N m + 1)) by lia.
      rewrite <- Z.add_mod_idemp_l by lia.
      rewrite Z.mod_small by lia. lia.
Qed.

(** The turn in which the counter overflows prints nothing. *)
Lemma body_overflow (o : list string) :
  body (mkState INT_MAX o) = mkState INT_MIN o.
Proof. reflexivity. Qed.

(** The first multiple of the period met after the overflow is
    -2100000000: the line printed is "-21". *)
Lemma body_minus_21 (o : list string) :
  body (mkState (-2100000001) o)
  = mkState (-2100000000) (o ++ [printf_d (-21)]).
Proof. reflexivity. Qed.

(** The last state before the overflow. *)
Lemma run_int_max : run 2147483647 = mkState INT_MAX (lines 21).
Proof. rewrite run_small by (unfold INT_MAX; lia). reflexivity. Qed.

(** From the overflow to just before -2100000000. *)
Lemma quiet_after_overflow (o : list string) :
  run_from (mkState INT_MIN o) 47483647 = mkState (-2100000001) o.
Proof.
  rewrite (run_from_quiet (mkState INT_MIN o) 47483647);
    [reflexivity | now vm_compute ..].
Qed.

(** From -2100000000 to the 2200000000th increment. *)
Lemma quiet_to_22_periods (o : list string) :
  run_from (mkState (-2100000000) o) 5032704 = mkState (-2094967296) o.
Proof.
  rewrite (run_from_quiet (mkState (-2100000000) o) 5032704);
    [reflexivity | now vm_compute ..].
Qed.

Lemma split_22_periods :
  2200000000%N = (5032704 + (1 + (47483647 + (1 + 2147483647))))%N.
Proof. reflexivity. Qed.

(** The state after 22 periods. *)
Lemma run_22_periods :
  run 2200000000 = mkState (-2094967296) (lines 21 ++ [printf_d (-21)]).
Proof.
  assert (E := run_int_max). unfold run in *.
  rewrite split_22_periods, !run_from_add, E.
  rewrite (run_from_1 (mkState INT_MAX (lines 21))), body_overflow.
  rewrite quiet_after_overflow, run_from_1, body_minus_21.
  apply quiet_to_22_periods.
Qed.

Lemma exec_run (n : N) : exec n = Some (run n).
Proof.
  induction n as [|n IH] using N.peano_ind.
  - reflexivity.
  - unfold exec in *. rewrite N.iter_succ, IH.
    unfold run. rewrite run_from_succ. reflexivity.
Qed.

(** ** The claims *)

(** C2, as the code has it.  While the 32-bit counter has not overflowed,
    that is for 1 <= k <= 21: after exactly k * 100000000 increments the
    counter holds k * 100000000, the output has k lines, the k-th of which
    is "k\n", and every count of increments from the (k-1)-th multiple of
    the period up to, but not including, the k-th leaves the output as it
    was at the (k-1)-th multiple. *)
Theorem kth_line_before_overflow (k : Z) :
  1 <= k <= 21 ->
  let s := run (Z.to_N (k * PERIOD)) in
  i s = k * PERIOD
  /\ length (stdout s) = Z.to_nat k
  /\ nth_error (stdout s) (Z.to_nat (k - 1)) = Some (dec k ++ nl)%string
  /\ (forall n : N,
         (k - 1) * PERIOD <= Z.of_N n < k * PERIOD ->
         stdout (run n) = stdout (run (Z.to_N ((k - 1) * PERIOD)))).
Proof.
  intros K s.
  assert (HP : PERIOD = 100000000) by reflexivity.
  assert (S1 : s = mkState (k * PERIOD) (lines (Z.to_nat k))).
  { subst s. rewrite run_small by (unfold INT_MAX; lia).
    rewrite Z2N.id by lia. rewrite Z.div_mul by lia. reflexivity. }
  rewrite S1. simpl. repeat split.
  - apply lines_length.
  - rewrite lines_nth by lia.
    unfold printf_d. do 3 f_equal. lia.
  - intros n Hn.
    rewrite !run_small by (unfold INT_MAX; lia). simpl.
    rewrite Z2N.id by lia. rewrite Z.div_mul by lia.
    do 2 f_equal.
    pose proof (Z.div_mod (Z.of_N n) PERIOD ltac:(lia)) as D.
    pose proof (Z.mod_pos_bound (Z.of_N n) PERIOD ltac:(lia)) as B.
    rewrite HP in *. nia.
Qed.

Lemma kth_line_before_overflow_witness :
  1 <= 3 <= 21
  /\ nth_error (stdout (run (Z.to_N (3 * PERIOD)))) (Z.to_nat (3 - 1))
     = Some (dec 3 ++ nl)%string.
Proof.
  split; [lia|].
  destruct (kth_line_before_overflow 3 ltac:(lia)) as (_ & _ & E & _).
  exact E.
Defined.

(** C2 fails once the counter has overflowed: after 22 * 100000000
    increments the 22nd line of the output is "-21\n", not "22\n". *)
Lemma line_22_is_minus_21 :
  nth_error (stdout (run (Z.to_N (22 * PERIOD)))) (Z.to_nat (22 - 1))
  = Some (dec (-21) ++ nl)%string
  /\ nth_error (stdout (run (Z.to_N (22 * PERIOD)))) (Z.to_nat (22 - 1))
     <> Some (dec 22 ++ nl)%string.
Proof.
  change (Z.to_N (22 * PERIOD)) with 2200000000%N.
  rewrite run_22_periods.
  split; [reflexivity | discriminate].
Qed.

(** C9.  The loop has no way out: its controlling expression is never
    zero, so every state has a successor, the body executed once more;
    after any number of turns the program is still in the loop, and the
    turn that follows exists. *)
Theorem loop_never_ends :
  (forall s : state, guard s <> 0)
  /\ (forall s : state, step s = Some (body s))
  /\ (forall n : N, exec n = Some (run n))
  /\ (forall n : N, exists s' : state,
         step (run n) = Some s' /\ exec (N.succ n) = Some s').
Proof.
  repeat split.
  - discriminate.
  - apply exec_run.
  - intros n. exists (body (run n)). split; [reflexivity|].
    rewrite exec_run. unfold run. now rewrite run_from_succ.
Qed.

End CountInfiniteFacts.

(* ================================================================== *)
(** * The fork demonstrator: properties *)
(* ================================================================== *)

Module ForkFacts.
Import C CFacts Fork.
Open Scope string_scope.
Open Scope Z_scope.

(** ** Newlines and the line buffer *)

Lemma occurs_app (c : ascii) (a b : string) :
  occurs c (a ++ b) = occurs c a || occurs c b.
Proof.
induction a as [|x a IH]; simpl; [reflexivity|].
now rewrite IH, orb_assoc.
Qed.

Lemma has_nl_app (a b : string) : has_nl (a ++ b) = has_nl a || has_nl b.
Proof. apply occurs_app. Qed.

Lemma has_nl_cons (x : ascii) (r : string) :
  has_nl (String x r) = is_nl x || has_nl r.
Proof. reflexivity. Qed.

(** Decimal digits are neither newlines nor spaces. *)
Lemma occurs_uint (c : ascii) (u : Decimal.uint) :
  c = ascii_of_nat 10 \/ c = " "%char ->
  occurs c (NilEmpty.string_of_uint u) = false.
Proof.
intros [-> | ->]; induction u; simpl; assumption || reflexivity.
Qed.

(** A number printed in decimal holds neither a newline nor a space. *)
Lemma occurs_dec (c : ascii) (z : Z) :
  c = ascii_of_nat 10 \/ c = " "%char -> occurs c (dec z) = false.
Proof.
intros H. unfold dec.
assert (M : occurs c "-" = false) by (destruct H as [-> | ->]; reflexivity).
assert (Z0 : occurs c "0" = false) by (destruct H as [-> | ->]; reflexivity).
destruct (Z.to_int z) as [u|u]; unfold NilZero.string_of_int.
- destruct u; try exact Z0; apply (occurs_uint c (_ u) H).
- change (String "-" ?s) with ("-" ++ s).
  rewrite occurs_app, M.
  destruct u; try exact Z0; apply (occurs_uint c (_ u) H).
Qed.

Lemma has_nl_dec (z : Z) : has_nl (dec z) = false.
Proof. apply occurs_dec. now left. Qed.

Lemma cut_no_nl (a : string) : has_nl a = false -> cut a = (None, a).
Proof.
induction a as [|c a IH]; [reflexivity|].
rewrite has_nl_cons. intros H. apply orb_false_iff in H as [Hc Ha].
cbn [cut]. now rewrite IH, Hc.
Qed.

Lemma cut_line (a : string) :
  has_nl a = false -> cut (a ++ nl) = (Some (a ++ nl), "").
Proof.
induction a as [|c a IH]; [reflexivity|].
rewrite has_nl_cons. intros H. apply orb_false_iff in H as [Hc Ha].
cbn [cut append]. now rewrite IH.
Qed.

Lemma append_assoc (a b c : string) : (a ++ b) ++ c = a ++ b ++ c.
Proof. induction a as [|x a IH]; simpl; [reflexivity | now rewrite IH]. Qed.

(** A text without newline stays in the buffer. *)
Lemma printf_partial (text : string) (s : image) :
  has_nl (stdout_buf s) = false -> has_nl text = false ->
  printf text s = Ret (Val tt, set_buf (stdout_buf s ++ text) s).
Proof.
intros Hb Ht. unfold printf.
rewrite cut_no_nl; [reflexivity|].
now rewrite has_nl_app, Hb, Ht.
Qed.

(** A text that ends the line sends the whole line to the descriptor. *)
Lemma printf_line (text : string) (s : image) :
  has_nl (stdout_buf s) = false -> has_nl text = false ->
  printf (text ++ nl) s
  = Vis (SysWrite STDOUT (stdout_buf s ++ text ++ nl))
        (fun _ => Ret (Val tt, set_buf "" s)).
Proof.
intros Hb Ht. unfold printf.
rewrite <- append_assoc, cut_line; [reflexivity|].
now rewrite has_nl_app, Hb, Ht.
Qed.


Lemma set_buf_same (s : image) : stdout_buf s = "" -> set_buf "" s = s.
Proof. destruct s; simpl; intros ->; reflexivity. Qed.

(** [print_pid], run by the kernel on an empty buffer: two queries and one
    write, the checkpoint line; the image is as before. *)
Lemma exec_print_pid (e : os) (root : bool) (msg : string) (s : image)
      (k : res unit * image -> prog (ending * image)) (st : kernel) :
  has_nl msg = false ->
  stdout_buf s = "" ->
  exec e root (bindP (print_pid msg s) k) st
  = exec e root (k (Val tt, s))
         (record (EvWrite STDOUT
                    (checkpoint msg (id_pid (me e root)) (id_ppid (me e root))))
            (record (EvGetppid (id_ppid (me e root)))
               (record (EvGetpid (id_pid (me e root))) st))).
Proof.
intros Hm Hs. unfold print_pid, bind.
rewrite printf_partial
  by (rewrite ?Hs, ?has_nl_app, ?Hm; reflexivity).
cbn [bindP fst snd sys exec].
set (p := id_pid (me e root)). set (q := id_ppid (me e root)).
replace ("pid=" ++ dec p ++ " ppid=" ++ dec q ++ nl)
  with (("pid=" ++ dec p ++ " ppid=" ++ dec q) ++ nl)
  by (now rewrite !append_assoc).
rewrite printf_line.
- cbn [bindP fst snd exec stdout_buf set_buf].
  unfold checkpoint. do 3 f_equal.
  + destruct s; simpl in *; now subst.
  + rewrite Hs. cbn [append]. now rewrite !append_assoc.
- cbn [stdout_buf set_buf]. now rewrite Hs, !has_nl_app, Hm.
- now rewrite !has_nl_app, !has_nl_dec.
Qed.


(** ** Running [main] symbolically *)

Lemma exec_printf_fork_return (e : os) (root : bool) (pid : Z) (s : image)
      (k : res unit * image -> prog (ending * image)) (st : kernel) :
  stdout_buf s = "" ->
  exec e root (bindP (printf ("fork() return = " ++ dec pid ++ nl) s) k) st
  = exec e root (k (Val tt, s)) (record (EvWrite STDOUT (fork_return pid)) st).
Proof.
intros Hs.
replace ("fork() return = " ++ dec pid ++ nl)
  with (("fork() return = " ++ dec pid) ++ nl)
  by (now rewrite !append_assoc).
rewrite printf_line.
- cbn [bindP fst snd exec]. rewrite Hs. unfold fork_return.
  rewrite (set_buf_same s Hs). reflexivity.
- now rewrite Hs.
- now rewrite has_nl_app, has_nl_dec.
Qed.

(** Nested sequencing can be re-associated under the kernel. *)
Lemma exec_assoc {A B : Type} (e : os) (p : prog A) (f : A -> prog B)
      (k : B -> prog (ending * image)) :
  forall (root : bool) (st : kernel),
    exec e root (bindP (bindP p f) k) st
    = exec e root (bindP p (fun x => bindP (f x) k)) st.
Proof.
induction p as [r | X c k' IH]; intros root st; [reflexivity|].
destruct c; cbn [bindP exec].
- apply IH.
- apply IH.
- destruct (k_kid st); [apply IH|].
  destruct (root && negb (os_fork e =? -1)); [|apply IH].
  rewrite (IH 0 false). apply IH.
- destruct (k_zombie st); apply IH.
- apply IH.
- apply IH.
Qed.

(** Continuations that run alike at every answer run alike after any
    program. *)
Lemma exec_ext {A : Type} (e : os) (p : prog A)
      (k k' : A -> prog (ending * image)) :
  (forall x root st, exec e root (k x) st = exec e root (k' x) st) ->
  forall (root : bool) (st : kernel),
    exec e root (bindP p k) st = exec e root (bindP p k') st.
Proof.
intros H. induction p as [r | X c k0 IH]; intros root st.
- apply H.
- destruct c; cbn [bindP exec].
  + apply IH.
  + apply IH.
  + destruct (k_kid st); [apply IH|].
    destruct (root && negb (os_fork e =? -1)); [|apply IH].
    rewrite (IH 0 false). apply IH.
  + destruct (k_zombie st); apply IH.
  + apply IH.
  + apply IH.
Qed.

(** Sequencing of statements is associative under the kernel. *)
Lemma exec_bind_assoc {A B D : Type} (e : os) (root : bool)
      (m : M A) (f : A -> M B) (h : B -> M D) (s : image)
      (k : res D * image -> prog (ending * image)) (st : kernel) :
  exec e root (bindP (bind (bind m f) h s) k) st
  = exec e root (bindP (bind m (fun x => bind (f x) h) s) k) st.
Proof.
unfold bind. rewrite !exec_assoc. apply exec_ext.
intros [[a|x] s'] root' st'; cbn [fst snd bindP]; [|reflexivity].
now rewrite exec_assoc.
Qed.

Lemma exec_bind_print_pid {A : Type} (e : os) (root : bool) (msg : string)
      (F : unit -> M A) (s : image)
      (k : res A * image -> prog (ending * image)) (st : kernel) :
  has_nl msg = false ->
  stdout_buf s = "" ->
  exec e root (bindP (bind (print_pid msg) F s) k) st
  = exec e root (bindP (F tt s) k)
         (mkKernel (k_log st ++ asked msg (me e root)) (k_kid st) (k_zombie st)).
Proof.
intros Hm Hs. unfold bind at 1.
rewrite exec_assoc, exec_print_pid by assumption.
unfold record, asked. cbn [fst snd k_log k_kid k_zombie].
now rewrite <- !app_assoc.
Qed.

Lemma exec_bind_printf_fork_return {A : Type} (e : os) (root : bool) (pid : Z)
      (F : unit -> M A) (s : image)
      (k : res A * image -> prog (ending * image)) (st : kernel) :
  stdout_buf s = "" ->
  exec e root
       (bindP (bind (printf ("fork() return = " ++ dec pid ++ nl)) F s) k) st
  = exec e root (bindP (F tt s) k) (record (EvWrite STDOUT (fork_return pid)) st).
Proof.
intros Hs. unfold bind at 1.
now rewrite exec_assoc, exec_printf_fork_return by assumption.
Qed.

(** Symbolic execution: [kcbn] unfolds the program and the kernel by one
    layer, [kstep] moves past the next statement, [ktest] settles a test
    from the hypotheses, [krun] runs to the end of the process. *)
Ltac kcbn :=
  cbn [process main child_branch bind bindP ret halt sys get modify
       exit abort assert perror fflush initial boot record exec fst snd
       set_status set_i set_pid set_ppid set_buf vars stdout_buf
       v_status v_i v_pid v_ppid me os_self os_child os_fork os_core
       os_strerror id_pid id_ppid k_log k_kid k_zombie f_end f_image f_log
       termination_of andb negb app Z.eqb Pos.eqb].

Ltac kstep :=
  first [ progress kcbn
        | rewrite exec_bind_print_pid by reflexivity
        | rewrite exec_bind_printf_fork_return by reflexivity
        | rewrite exec_bind_assoc
        | progress unfold child_branch
        | rewrite exec_assoc ].

Ltac ktest :=
  match goal with
  | H : ?x <> ?y |- context [?x =? ?y] => rewrite (proj2 (Z.eqb_neq x y) H)
  | |- context [?x =? ?x] => rewrite (Z.eqb_refl x)
  | |- context [WIFEXITED ?s] =>
      let v := eval vm_compute in (WIFEXITED s) in
      change (WIFEXITED s) with v
  | |- context [wait_check ?s] =>
      let v := eval vm_compute in (wait_check s) in
      change (wait_check s) with v
  end.

Ltac krun := repeat first [kstep | ktest].

(** The kernel running [main] follows the table of paths, whatever the
    environment answers and whatever the stack held. *)
Lemma exec_paths (e : os) (g : locals) :
  exec e true (process g) (boot [])
  = (parent_path e g, if forked e then Some (kid_path e g) else None).
Proof.
unfold parent_path, passes, stored, kid_path, forked.
destruct e as [[p q] f [c cq] core why]. destruct g as [gs gi gp gpp].
cbn [os_self os_child os_fork os_core os_strerror id_pid id_ppid v_status v_pid].
destruct (Z.eqb_spec p (-1)) as [Hp|Hp]; [subst p; krun; reflexivity|].
destruct (Z.eqb_spec f (-1)) as [Hf|Hf]; [subst f; krun; reflexivity|].
destruct (Z.eqb_spec c (-1)) as [Hc|Hc];
  [subst c | destruct (Z.eqb_spec c p) as [Hcp|Hcp]; [subst c|]];
  (destruct (Z.eqb_spec f 0) as [Hz|Hz]; [subst f|]);
  destruct core; krun; reflexivity.
Qed.

Theorem run_paths (e : os) (g : locals) : run e g = paths e g.
Proof. unfold run, paths. now rewrite exec_paths. Qed.

(** ** Concrete runs *)

(** The first line of the header of fork.c. *)
Example header_first_line :
  checkpoint "before fork" 16026 14381
  = "before fork pid=16026 ppid=14381" ++ nl.
Proof. reflexivity. Qed.

(** The run of the header of fork.c, event by event. *)
Example header_run :
  run header_os junk
  = mkOutcome
      (mkFinished (Exit 0) (mkImage (mkLocals 0 0 16031 16026) "")
         [EvGetpid 16026; EvGetpid 16026; EvGetppid 14381;
          EvWrite STDOUT (checkpoint "before fork" 16026 14381);
          EvFork 16031; EvGetpid 16026; EvGetppid 14381;
          EvWrite STDOUT (checkpoint "after fork" 16026 14381);
          EvGetpid 16026; EvGetppid 14381;
          EvWrite STDOUT (checkpoint "after (pid == 0)" 16026 14381);
          EvWait (Some 0); EvGetpid 16026; EvGetppid 14381;
          EvWrite STDOUT (checkpoint "after wait" 16026 14381);
          EvWrite STDOUT (fork_return 16031)])
      (Some
         (mkFinished (Exit 0) (mkImage (mkLocals 7 1 16031 16026) "")
            [EvFork 0; EvGetpid 16031; EvGetppid 16026;
             EvWrite STDOUT (checkpoint "after fork" 16031 16026);
             EvGetpid 16031; EvGetppid 16026;
             EvWrite STDOUT (checkpoint "inside (pid == 0)" 16031 16026);
             EvGetpid 16031])).
Proof. now vm_compute. Qed.

(** [fork] refused: a diagnostic, a failed assertion, no child. *)
Example no_fork_run :
  let o := run no_fork_os junk in
  f_end (parent o) = Abort
  /\ child o = None
  /\ written STDOUT (f_log (parent o))
     = [checkpoint "before fork" 16026 14381]
  /\ written STDERR (f_log (parent o))
     = [diagnostic "fork" "Resource temporarily unavailable";
        assertion_failed "false"].
Proof. now vm_compute. Qed.

(** The child cannot learn its id: it exits with 1, [wait] stores 256, and
    the parent is stopped by the assertion on the status. *)
Example no_child_pid_run :
  let o := run no_child_pid_os junk in
  option_map f_end (child o) = Some (Exit 1)
  /\ v_status (vars (f_image (parent o))) = 256
  /\ f_end (parent o) = Abort
  /\ written STDERR (f_log (parent o))
     = [assertion_failed "status == WEXITSTATUS(EXIT_SUCCESS)"].
Proof. now vm_compute. Qed.

(** The child has the id of its creator: its assertion fails, [wait]
    stores 134 ([SIGABRT] with a core dump), and the parent reports an
    abnormal exit. *)
Example same_pid_run :
  let o := run same_pid_os junk in
  option_map f_end (child o) = Some Abort
  /\ v_status (vars (f_image (parent o))) = 134
  /\ f_end (parent o) = Abort
  /\ written STDERR (f_log (parent o))
     = [diagnostic "execl abnormal exit" "Resource temporarily unavailable";
        assertion_failed "false"].
Proof. now vm_compute. Qed.

(** ** The status word *)

(** The macro recovers the low byte of the exit code. *)
Lemma WEXITSTATUS_exited (code : Z) :
  WEXITSTATUS (wstatus (Exited code)) = Z.land code 255.
Proof.
unfold WEXITSTATUS, wstatus.
change 65280 with (Z.shiftl 255 8).
rewrite <- Z.shiftl_land, <- Z.land_assoc.
change (Z.land 255 255) with 255.
rewrite Z.shiftr_shiftl_l by lia. reflexivity.
Qed.

Lemma wstatus_exited_0 (code : Z) :
  wstatus (Exited code) = 0 <-> Z.land code 255 = 0.
Proof. unfold wstatus. apply Z.shiftl_eq_0_iff. lia. Qed.


(** A process killed by a signal did not terminate normally. *)
Lemma WIFEXITED_signaled (sig : Z) (core : bool) :
  1 <= sig <= 64 -> WIFEXITED (wstatus (Signaled sig core)) = false.
Proof.
intros H. unfold WIFEXITED, wstatus. apply Z.eqb_neq.
rewrite Z.land_lor_distr_l, <- Z.land_assoc.
change (Z.land 127 127) with 127.
replace (Z.land (if core then 128 else 0) 127) with 0
  by (now destruct core).
rewrite Z.lor_0_r.
change 127 with (Z.ones 7). rewrite Z.land_ones by lia.
rewrite Z.mod_small; lia.
Qed.

(** On the status of any terminated child, the comparison of the assertion
    after [wait] decides whether the extracted exit code is
    [EXIT_SUCCESS]. *)
Lemma wait_check_spec (t : termination) :
  wf_termination t ->
  WIFEXITED (wstatus t) = true ->
  (wait_check (wstatus t) = true <-> WEXITSTATUS (wstatus t) = EXIT_SUCCESS).
Proof.
intros W N. destruct t as [code | sig core].
- rewrite WEXITSTATUS_exited. unfold wait_check, EXIT_SUCCESS.
  change (WEXITSTATUS 0) with 0.
  rewrite Z.eqb_eq. apply wstatus_exited_0.
- rewrite WIFEXITED_signaled in N by exact W. discriminate.
Qed.

(** Off the statuses [wait] stores, the comparison and the extracted code
    part: the word 128 passes [WIFEXITED] and carries exit code 0, yet it is
    not equal to [WEXITSTATUS(EXIT_SUCCESS)]. *)
Lemma wait_check_raw_word :
  WIFEXITED 128 = true /\ WEXITSTATUS 128 = EXIT_SUCCESS
  /\ wait_check 128 = false
  /\ forall t, wf_termination t -> wstatus t <> 128.
Proof.
repeat split. intros [code | sig core] W E.
- pose proof (WEXITSTATUS_exited code) as X. rewrite E in X.
  change (WEXITSTATUS 128) with 0 in X. symmetry in X.
  apply wstatus_exited_0 in X. rewrite E in X. discriminate.
- pose proof (WIFEXITED_signaled sig core W) as X. rewrite E in X.
  discriminate.
Qed.


(** ** Reading the table *)

Lemma forked_spec (e : os) :
  forked e = true <-> id_pid (os_self e) <> -1 /\ os_fork e <> -1.
Proof.
unfold forked. rewrite andb_true_iff, !negb_true_iff, !Z.eqb_neq. tauto.
Qed.

Lemma child_spec (e : os) (g : locals) (k : finished) :
  child (run e g) = Some k <-> forked e = true /\ k = kid_path e g.
Proof.
rewrite run_paths. cbn [paths child].
destruct (forked e); split.
- intros [= <-]. now split.
- intros [_ ->]. reflexivity.
- discriminate.
- intros [X _]. discriminate X.
Qed.

Lemma parent_spec (e : os) (g : locals) : parent (run e g) = parent_path e g.
Proof. now rewrite run_paths. Qed.

(** However a process ends, the kernel records a well-formed
    termination. *)
Lemma wf_termination_of (e : os) (h : ending) :
  wf_termination (termination_of e h).
Proof. destruct h; cbn; [exact I | unfold SIGABRT; lia]. Qed.

(** The parent's path from [fork] on, when a child was made and the parent
    is not in the branch [pid == 0]: its variables at the end, and how it
    ends. *)
Lemma parent_waits (e : os) (g : locals) :
  forked e = true ->
  os_fork e <> 0 ->
  vars (f_image (parent_path e g))
  = mkLocals (stored e g) 0 (os_fork e) (id_pid (os_self e))
  /\ f_end (parent_path e g)
     = (if passes e g then Exit EXIT_SUCCESS else Abort).
Proof.
intros F Z0. apply forked_spec in F as [Hp Hf].
unfold parent_path.
rewrite (proj2 (Z.eqb_neq _ _) Hp), (proj2 (Z.eqb_neq _ _) Hf),
        (proj2 (Z.eqb_neq _ _) Z0).
cbv zeta.
destruct (passes e g); [|destruct (WIFEXITED _)]; split; reflexivity.
Qed.

(** How the child ends. *)
Lemma kid_end (e : os) (g : locals) :
  f_end (kid_path e g)
  = if id_pid (os_child e) =? -1 then Exit EXIT_FAILURE
    else if id_pid (os_child e) =? id_pid (os_self e) then Abort
         else Exit EXIT_SUCCESS.
Proof.
unfold kid_path. cbv zeta.
destruct (_ =? -1); [reflexivity|]. now destruct (_ =? _).
Qed.

(** The child's variables at its end: [i] is 1 exactly when it ran its
    increment. *)
Lemma kid_vars (e : os) (g : locals) :
  vars (f_image (kid_path e g))
  = mkLocals (v_status g)
             (match f_end (kid_path e g) with
              | Exit 0 => 1
              | _ => 0
              end)
             (id_pid (os_child e))
             (id_pid (os_self e)).
Proof.
unfold kid_path. cbv zeta.
destruct (Z.eqb_spec (id_pid (os_child e)) (-1)) as [->|]; [reflexivity|].
now destruct (_ =? _).
Qed.

(** The parent's [i] and [ppid] never move after their first
    assignment. *)
Lemma parent_i_ppid (e : os) (g : locals) :
  v_i (vars (f_image (parent_path e g))) = 0
  /\ v_ppid (vars (f_image (parent_path e g))) = id_pid (os_self e).
Proof.
unfold parent_path. cbv zeta.
destruct (Z.eqb_spec (id_pid (os_self e)) (-1)) as [->|]; [now split|].
destruct (_ =? -1); [now split|].
destruct (_ =? 0); [now split|].
destruct (passes e g); [|destruct (WIFEXITED _)]; now split.
Qed.

(** ** What the processes write *)

Lemma written_app (f : fd) (a b : list event) :
  written f (a ++ b) = (written f a ++ written f b)%list.
Proof.
induction a as [|ev a IH]; [reflexivity|].
destruct ev as [| | | |[|] text]; destruct f; cbn; now rewrite ?IH.
Qed.

Lemma stdout_asked (tag : string) (who : ident) :
  written STDOUT (asked tag who)
  = [checkpoint tag (id_pid who) (id_ppid who)].
Proof. reflexivity. Qed.

Lemma stderr_asked (tag : string) (who : ident) :
  written STDERR (asked tag who) = [].
Proof. reflexivity. Qed.

(** The child writes two lines, whatever happens to it afterwards. *)
Lemma kid_stdout (e : os) (g : locals) :
  written STDOUT (f_log (kid_path e g))
  = [checkpoint "after fork" (id_pid (os_child e)) (id_ppid (os_child e));
     checkpoint "inside (pid == 0)" (id_pid (os_child e))
                (id_ppid (os_child e))].
Proof.
unfold kid_path. cbv zeta.
destruct (_ =? -1); [reflexivity|]. now destruct (_ =? _).
Qed.

(** The lines of the parent, path by path. *)
Lemma parent_stdout (e : os) (g : locals) :
  let p := id_pid (os_self e) in
  let q := id_ppid (os_self e) in
  written STDOUT (f_log (parent_path e g))
  = if p =? -1 then []
    else checkpoint "before fork" p q
         :: (if os_fork e =? -1 then []
             else checkpoint "after fork" p q
                  :: (if os_fork e =? 0
                      then [checkpoint "inside (pid == 0)" p q]
                      else checkpoint "after (pid == 0)" p q
                           :: (if passes e g
                               then [checkpoint "after wait" p q;
                                     fork_return (os_fork e)]
                               else []))).
Proof.
unfold parent_path. cbv zeta.
destruct (_ =? -1); [reflexivity|].
destruct (_ =? -1); [reflexivity|].
destruct (_ =? 0); [reflexivity|].
destruct (passes e g); [|destruct (WIFEXITED _)]; reflexivity.
Qed.

(** What the parent leaves on [stderr], path by path. *)
Lemma parent_stderr (e : os) (g : locals) :
  let why := os_strerror e in
  written STDERR (f_log (parent_path e g))
  = if id_pid (os_self e) =? -1 then [diagnostic "getpid" why]
    else if os_fork e =? -1
         then [diagnostic "fork" why; assertion_failed "false"]
    else if os_fork e =? 0 then [assertion_failed "pid != ppid"]
    else if passes e g then []
    else if WIFEXITED (stored e g)
         then [assertion_failed "status == WEXITSTATUS(EXIT_SUCCESS)"]
    else [diagnostic "execl abnormal exit" why; assertion_failed "false"].
Proof.
unfold parent_path. cbv zeta.
destruct (_ =? -1); [reflexivity|].
destruct (_ =? -1); [reflexivity|].
destruct (_ =? 0); [reflexivity|].
destruct (passes e g); [|destruct (WIFEXITED _)]; reflexivity.
Qed.

(** The parent passes the assertion exactly when the child exited with
    code 0. *)
Lemma passes_spec (e : os) (g : locals) :
  passes e g = true <-> f_end (kid_path e g) = Exit EXIT_SUCCESS.
Proof.
unfold passes, stored. rewrite kid_end.
destruct (_ =? -1); [|destruct (_ =? _)]; cbn [termination_of].
- now vm_compute.
- destruct (os_core e); now vm_compute.
- now vm_compute.
Qed.

(** ** Interleavings *)

Lemma count_tagged_interleaving (tag : string) (l r t : list string) :
  interleaving l r t ->
  count_tagged tag t = (count_tagged tag l + count_tagged tag r)%nat.
Proof.
unfold count_tagged.
induction 1 as [| x l r t _ IH | x l r t _ IH]; cbn [filter].
- reflexivity.
- destruct (tagged tag x); cbn [length]; lia.
- destruct (tagged tag x); cbn [length]; lia.
Qed.


(** A run that ends with [EXIT_SUCCESS] made a child, stayed on the
    parent's path and went past the assertion after [wait]. *)
Lemma success_inv (e : os) (g : locals) :
  f_end (parent_path e g) = Exit EXIT_SUCCESS ->
  forked e = true /\ os_fork e <> 0 /\ passes e g = true.
Proof.
unfold parent_path, forked. cbv zeta.
destruct (Z.eqb_spec (id_pid (os_self e)) (-1)); [discriminate|].
destruct (Z.eqb_spec (os_fork e) (-1)); [discriminate|].
destruct (Z.eqb_spec (os_fork e) 0); [discriminate|].
destruct (passes e g); [now repeat split|].
destruct (WIFEXITED _); discriminate.
Qed.

(** The write that precedes [wait] in the parent. *)
Lemma parent_before_wait (e : os) (g : locals) :
  before_wait (f_log (parent_path e g))
  = if (id_pid (os_self e) =? -1) || (os_fork e =? -1) || (os_fork e =? 0)
    then None
    else Some (checkpoint "after (pid == 0)" (id_pid (os_self e))
                          (id_ppid (os_self e))).
Proof.
unfold parent_path. cbv zeta.
destruct (_ =? -1); [reflexivity|].
destruct (_ =? -1); [reflexivity|].
destruct (_ =? 0); [reflexivity|].
destruct (passes e g); [|destruct (WIFEXITED _)]; reflexivity.
Qed.

(** The output shown in the header of fork.c is one the model allows. *)
Example header_output :
  terminal (run header_os junk)
    [checkpoint "before fork" 16026 14381;
     checkpoint "after fork" 16031 16026;
     checkpoint "inside (pid == 0)" 16031 16026;
     checkpoint "after fork" 16026 14381;
     checkpoint "after (pid == 0)" 16026 14381;
     checkpoint "after wait" 16026 14381;
     fork_return 16031].
Proof.
unfold terminal. rewrite run_paths. unfold paths.
change (forked header_os) with true.
cbn [parent child log_of]. rewrite kid_stdout, parent_stdout.
change (passes header_os junk) with true.
cbn [os_self os_child os_fork header_os id_pid id_ppid Z.eqb Pos.eqb].
apply il_left. apply il_right. apply il_right.
repeat apply il_left. apply il_nil.
Qed.

(** ** Reading the numbers back from a line *)

Lemma append_inv_head (a x y : string) : a ++ x = a ++ y -> x = y.
Proof.
induction a as [|c a IH]; simpl; [trivial|].
intros [= H]. now apply IH.
Qed.

(** Two texts cut at the first occurrence of a separator agree piece by
    piece. *)
Lemma append_inv_sep (c : ascii) (x x' r r' : string) :
  occurs c x = false -> occurs c x' = false ->
  x ++ String c r = x' ++ String c r' -> x = x' /\ r = r'.
Proof.
revert x'. induction x as [|a x IH]; intros [|a' x'] Hx Hx' E; simpl in *.
- injection E as ->. now split.
- injection E as <- _. now rewrite Ascii.eqb_refl in Hx'.
- injection E as -> _. now rewrite Ascii.eqb_refl in Hx.
- injection E as -> E.
  apply orb_false_iff in Hx as [_ Hx]. apply orb_false_iff in Hx' as [_ Hx'].
  destruct (IH x' Hx Hx' E) as [-> ->]. now split.
Qed.

(** A checkpoint line shows one pid and one ppid. *)
Lemma checkpoint_inj (tag : string) (a b a' b' : Z) :
  checkpoint tag a b = checkpoint tag a' b' -> a = a' /\ b = b'.
Proof.
unfold checkpoint. intros E.
apply append_inv_head in E. cbn [append] in E.
injection E as E.
apply append_inv_sep in E as [A E];
  [| apply occurs_dec; now right | apply occurs_dec; now right].
cbn [append] in E. injection E as E.
apply append_inv_sep in E as [B _];
  [| apply occurs_dec; now left | apply occurs_dec; now left].
split; now apply dec_inj.
Qed.

(** The last line of [main] shows one number. *)
Lemma fork_return_inj (a a' : Z) : fork_return a = fork_return a' -> a = a'.
Proof.
unfold fork_return. intros E.
apply append_inv_head in E.
apply append_inv_sep in E as [A _];
  [| apply occurs_dec; now left | apply occurs_dec; now left].
now apply dec_inj.
Qed.

(** ** The claims *)

(** C1.  In a run where [fork] made a child and the process that entered
    [main] is on the parent's path: [wait] stores the status of the child's
    termination; whenever that status passes [WIFEXITED], the comparison of
    the assertion that follows holds exactly when the exit code extracted
    from the status is [EXIT_SUCCESS], the parent ends with exit code 0 in
    that case and is aborted otherwise; and when the child terminated
    normally with exit code 0 the assertion passes and the parent exits with
    code 0. *)
Theorem wait_assertion_checks_exit_code (e : os) (g : locals) (k : finished) :
  child (run e g) = Some k ->
  os_fork e <> 0 ->
  let P := parent (run e g) in
  let status := v_status (vars (f_image P)) in
  status = wstatus (termination_of e (f_end k))
  /\ (WIFEXITED status = true ->
      (wait_check status = true <-> WEXITSTATUS status = EXIT_SUCCESS)
      /\ (f_end P = Exit EXIT_SUCCESS <-> WEXITSTATUS status = EXIT_SUCCESS)
      /\ (WEXITSTATUS status <> EXIT_SUCCESS -> f_end P = Abort))
  /\ (f_end k = Exit EXIT_SUCCESS ->
      WIFEXITED status = true
      /\ WEXITSTATUS status = EXIT_SUCCESS
      /\ f_end P = Exit EXIT_SUCCESS
      /\ written STDERR (f_log P) = []).
Proof.
intros K F P status. subst P status.
apply child_spec in K as [Fk ->]. rewrite parent_spec.
destruct (parent_waits e g Fk F) as [V E]. rewrite V, E.
cbn [v_status]. unfold passes.
fold (stored e g).
pose proof (wait_check_spec _ (wf_termination_of e (f_end (kid_path e g))))
  as W. fold (stored e g) in W.
split; [reflexivity|]. split.
- intros N. specialize (W N). rewrite N. cbn [andb].
  split; [exact W|].
  destruct (wait_check (stored e g)) eqn:C; split.
  + split; [intros _; now apply W | reflexivity].
  + intros X. exfalso. apply X. now apply W.
  + split; [intros X; discriminate X|].
    intros X. apply W in X. discriminate X.
  + reflexivity.
- intros X. apply passes_spec in X.
  rewrite parent_stderr, X.
  apply forked_spec in Fk as [Hp Hf].
  rewrite (proj2 (Z.eqb_neq _ _) Hp), (proj2 (Z.eqb_neq _ _) Hf),
          (proj2 (Z.eqb_neq _ _) F).
  unfold passes in X.
  apply andb_true_iff in X as [N C]. rewrite N, C.
  repeat split. now apply W.
Qed.

Lemma wait_assertion_checks_exit_code_witness :
  f_end (parent (run header_os junk)) = Exit EXIT_SUCCESS.
Proof.
assert (K : child (run header_os junk)
            = Some (kid_path header_os junk)) by (now vm_compute).
assert (F : os_fork header_os <> 0) by discriminate.
destruct (wait_assertion_checks_exit_code header_os junk _ K F)
  as (_ & _ & X).
apply X. reflexivity.
Defined.

(** C4.  In a run where the child incremented its copy of [i] (its [i] is
    1 at its end) and the process that entered [main] is on the parent's
    path: the parent's [i] is 0 at its end, one less than the child's, the
    parent ends by [return EXIT_SUCCESS], past the assertion [i == 0], and
    nothing was reported on its [stderr]. *)
Theorem parent_counter_untouched (e : os) (g : locals) (k : finished) :
  child (run e g) = Some k ->
  v_i (vars (f_image k)) = 1 ->
  os_fork e <> 0 ->
  let P := parent (run e g) in
  v_i (vars (f_image P)) = 0
  /\ v_i (vars (f_image k)) = v_i (vars (f_image P)) + 1
  /\ f_end P = Exit EXIT_SUCCESS
  /\ written STDERR (f_log P) = [].
Proof.
intros K I F P. subst P.
apply child_spec in K as [Fk ->]. rewrite parent_spec.
destruct (parent_i_ppid e g) as [I0 _].
assert (S : f_end (kid_path e g) = Exit EXIT_SUCCESS).
{ rewrite kid_vars in I. cbn [v_i] in I.
  destruct (f_end (kid_path e g)) as [[| |]|]; try discriminate I.
  reflexivity. }
apply passes_spec in S.
destruct (parent_waits e g Fk F) as [_ E].
apply forked_spec in Fk as [Hp Hf].
rewrite I0, I, E, S, parent_stderr, S.
rewrite (proj2 (Z.eqb_neq _ _) Hp), (proj2 (Z.eqb_neq _ _) Hf),
        (proj2 (Z.eqb_neq _ _) F).
repeat split.
Qed.

Lemma parent_counter_untouched_witness :
  v_i (vars (f_image (parent (run header_os junk)))) = 0.
Proof.
assert (K : child (run header_os junk)
            = Some (kid_path header_os junk)) by (now vm_compute).
assert (I : v_i (vars (f_image (kid_path header_os junk))) = 1)
  by reflexivity.
assert (F : os_fork header_os <> 0) by discriminate.
exact (proj1 (parent_counter_untouched header_os junk _ K I F)).
Defined.

(** C5.  In a run where [fork] made a child and gave it an id other than
    that of its creator: the [ppid] of the child (and of the parent) is the
    id captured before the fork, the [pid] of the child is the id it
    queried again, the two differ, the child is not aborted, and it exits
    with [EXIT_SUCCESS] as soon as its query did not fail. *)
Theorem child_pid_differs (e : os) (g : locals) (k : finished) :
  child (run e g) = Some k ->
  id_pid (os_child e) <> id_pid (os_self e) ->
  v_ppid (vars (f_image k)) = id_pid (os_self e)
  /\ v_ppid (vars (f_image (parent (run e g)))) = id_pid (os_self e)
  /\ v_pid (vars (f_image k)) = id_pid (os_child e)
  /\ v_pid (vars (f_image k)) <> v_ppid (vars (f_image k))
  /\ f_end k <> Abort
  /\ (id_pid (os_child e) <> -1 -> f_end k = Exit EXIT_SUCCESS).
Proof.
intros K D.
apply child_spec in K as [Fk ->]. rewrite parent_spec.
rewrite kid_vars, kid_end. cbn [v_pid v_ppid].
rewrite (proj2 (Z.eqb_neq _ _) D).
repeat split.
- apply parent_i_ppid.
- exact D.
- destruct (_ =? -1); discriminate.
- intros N. now rewrite (proj2 (Z.eqb_neq _ _) N).
Qed.

Lemma child_pid_differs_witness :
  v_pid (vars (f_image (kid_path header_os junk)))
  <> v_ppid (vars (f_image (kid_path header_os junk))).
Proof.
assert (K : child (run header_os junk)
            = Some (kid_path header_os junk)) by (now vm_compute).
assert (D : id_pid (os_child header_os) <> id_pid (os_self header_os))
  by discriminate.
exact (proj1 (proj2 (proj2 (proj2 (child_pid_differs header_os junk _ K D))))).
Defined.


(** The logs of the two processes ask for a process, and wait, at most
    once. *)
Lemma calls_once (e : os) (g : locals) :
  (calls is_fork (f_log (parent_path e g)) <= 1)%nat
  /\ (calls is_wait (f_log (parent_path e g)) <= 1)%nat
  /\ calls is_fork (f_log (kid_path e g)) = 1%nat
  /\ calls is_wait (f_log (kid_path e g)) = 0%nat.
Proof.
unfold parent_path, kid_path. cbv zeta.
repeat split.
- destruct (_ =? -1); [cbn; lia|].
  destruct (_ =? -1); [cbn; lia|].
  destruct (_ =? 0); [cbn; lia|].
  destruct (passes e g); [|destruct (WIFEXITED _)]; cbn; lia.
- destruct (_ =? -1); [cbn; lia|].
  destruct (_ =? -1); [cbn; lia|].
  destruct (_ =? 0); [cbn; lia|].
  destruct (passes e g); [|destruct (WIFEXITED _)]; cbn; lia.
- destruct (_ =? -1); [|destruct (_ =? _)]; reflexivity.
- destruct (_ =? -1); [|destruct (_ =? _)]; reflexivity.
Qed.







(** C7.  In a run that ends successfully, whatever the interleaving of the
    lines of the two processes on the terminal: exactly one line is tagged
    "inside" and exactly one is tagged "after wait"; the parent wrote no
    line tagged "inside" and the child none tagged "after wait"; and the
    child, having written its two lines, exited without waiting and without
    going on to the rest of [main]. *)
Theorem one_inside_one_after_wait (e : os) (g : locals) (t : list string) :
  f_end (parent (run e g)) = Exit EXIT_SUCCESS ->
  terminal (run e g) t ->
  count_tagged "inside" t = 1%nat
  /\ count_tagged "after wait" t = 1%nat
  /\ count_tagged "inside" (written STDOUT (f_log (parent (run e g)))) = 0%nat
  /\ count_tagged "after wait" (written STDOUT (log_of (child (run e g))))
     = 0%nat
  /\ exists k,
       child (run e g) = Some k
       /\ f_end k = Exit EXIT_SUCCESS
       /\ calls is_wait (f_log k) = 0%nat
       /\ written STDOUT (f_log k)
          = [checkpoint "after fork" (id_pid (os_child e))
                        (id_ppid (os_child e));
             checkpoint "inside (pid == 0)" (id_pid (os_child e))
                        (id_ppid (os_child e))].
Proof.
unfold terminal. rewrite run_paths. cbn [paths parent child].
intros S T. apply success_inv in S as (Fk & Z0 & Ps).
rewrite Fk in *. cbn [log_of] in *.
pose proof Fk as Fk'. apply forked_spec in Fk' as [Hp Hf].
rewrite parent_stdout, kid_stdout in *.
rewrite Ps, (proj2 (Z.eqb_neq _ _) Hp), (proj2 (Z.eqb_neq _ _) Hf),
        (proj2 (Z.eqb_neq _ _) Z0) in *.
rewrite !(count_tagged_interleaving _ _ _ _ T).
repeat split.
exists (kid_path e g). repeat split.
- now apply passes_spec.
- apply calls_once.
- apply kid_stdout.
Qed.

Lemma one_inside_one_after_wait_witness :
  count_tagged "inside"
    [checkpoint "before fork" 16026 14381;
     checkpoint "after fork" 16031 16026;
     checkpoint "inside (pid == 0)" 16031 16026;
     checkpoint "after fork" 16026 14381;
     checkpoint "after (pid == 0)" 16026 14381;
     checkpoint "after wait" 16026 14381;
     fork_return 16031] = 1%nat.
Proof.
assert (S : f_end (parent (run header_os junk)) = Exit EXIT_SUCCESS)
  by (now vm_compute).
exact (proj1 (one_inside_one_after_wait header_os junk _ S header_output)).
Defined.

(** C8.  In every run, a line tagged "before fork", whichever process
    wrote it, is the first line of the process that entered [main], and the
    pid it shows is the value held by [ppid], the id that process captured
    before the fork. *)
Theorem before_fork_pid_is_own (e : os) (g : locals) (line : string) :
  In line (written STDOUT (f_log (parent (run e g)))
           ++ written STDOUT (log_of (child (run e g)))) ->
  tagged "before fork" line = true ->
  line = checkpoint "before fork"
                    (v_ppid (vars (f_image (parent (run e g)))))
                    (id_ppid (os_self e))
  /\ v_ppid (vars (f_image (parent (run e g)))) = id_pid (os_self e)
  /\ hd_error (written STDOUT (f_log (parent (run e g)))) = Some line
  /\ (forall a b, line = checkpoint "before fork" a b ->
      a = v_ppid (vars (f_image (parent (run e g)))) /\ b = id_ppid (os_self e)).
Proof.
rewrite run_paths. cbn [paths parent child].
destruct (parent_i_ppid e g) as [_ ->].
rewrite parent_stdout. cbv zeta.
intros I T. apply in_app_or in I as [I | I].
- destruct (_ =? -1); [destruct I|].
  destruct I as [<- | I].
  { do 3 (split; [reflexivity|]).
    intros x y E. symmetry in E. now apply checkpoint_inj in E. }
  exfalso.
  destruct (_ =? -1); [destruct I|].
  destruct I as [<- | I]; [discriminate T|].
  destruct (_ =? 0).
  + destruct I as [<- | []]. discriminate T.
  + destruct I as [<- | I]; [discriminate T|].
    destruct (passes e g); [|destruct I].
    destruct I as [<- | [<- | []]]; discriminate T.
- exfalso. destruct (forked e); [|destruct I]. cbn [log_of] in I.
  rewrite kid_stdout in I.
  destruct I as [<- | [<- | []]]; discriminate T.
Qed.

Lemma before_fork_pid_is_own_witness :
  v_ppid (vars (f_image (parent (run header_os junk)))) = 16026.
Proof.
assert (I : In (checkpoint "before fork" 16026 14381)
               (written STDOUT (f_log (parent (run header_os junk)))
                ++ written STDOUT (log_of (child (run header_os junk))))).
{ vm_compute. left. reflexivity. }
assert (T : tagged "before fork" (checkpoint "before fork" 16026 14381) = true)
  by reflexivity.
exact (proj1 (proj2 (before_fork_pid_is_own header_os junk _ I T))).
Defined.

(** C10.  On the parent's path after a successful [fork]: at the end of
    the process [pid] still holds what [fork] returned; any line tagged
    "fork() return" that either process wrote is the parent's and shows
    that value; and when the parent completes, this is its last line. *)
Theorem fork_return_line_is_fork_result (e : os) (g : locals) :
  forked e = true ->
  os_fork e <> 0 ->
  let P := parent (run e g) in
  v_pid (vars (f_image P)) = os_fork e
  /\ (forall line,
         In line (written STDOUT (f_log P)
                  ++ written STDOUT (log_of (child (run e g)))) ->
         tagged "fork() return" line = true ->
         line = fork_return (os_fork e)
         /\ In line (written STDOUT (f_log P))
         /\ (forall a, line = fork_return a -> a = os_fork e))
  /\ (f_end P = Exit EXIT_SUCCESS ->
      last (written STDOUT (f_log P)) "" = fork_return (os_fork e)).
Proof.
intros Fk Z0 P. subst P. rewrite run_paths. cbn [paths parent child].
destruct (parent_waits e g Fk Z0) as [V E]. rewrite V, Fk.
cbn [v_pid log_of]. rewrite parent_stdout, kid_stdout. cbv zeta.
apply forked_spec in Fk as [Hp Hf].
rewrite (proj2 (Z.eqb_neq _ _) Hp), (proj2 (Z.eqb_neq _ _) Hf),
        (proj2 (Z.eqb_neq _ _) Z0).
split; [reflexivity|]. split.
- intros line I T. apply in_app_or in I as [I | I].
  + destruct I as [<- | [<- | [<- | I]]]; try discriminate T.
    destruct (passes e g); [|destruct I].
    destruct I as [<- | [<- | []]]; [discriminate T|].
    split; [reflexivity|]. split; [do 4 right; now left|].
    intros a X. symmetry. now apply fork_return_inj.
  + destruct I as [<- | [<- | []]]; discriminate T.
- rewrite E. destruct (passes e g); [|discriminate]. reflexivity.
Qed.

Lemma fork_return_line_is_fork_result_witness :
  v_pid (vars (f_image (parent (run header_os junk)))) = 16031.
Proof.
assert (Fk : forked header_os = true) by reflexivity.
assert (Z0 : os_fork header_os <> 0) by discriminate.
exact (proj1 (fork_return_line_is_fork_result header_os junk Fk Z0)).
Defined.

(** C3, as the code has it.  Every line the parent writes is a checkpoint
    "<tag> pid=<pid> ppid=<ppid>" with one of the five tags of [main] and
    the parent's own ids, or the line "fork() return = <pid>" with the
    value [fork] returned; every line the child writes is such a checkpoint
    with the child's ids; the line the parent writes right before waiting
    is the checkpoint tagged "after (pid == 0)"; and when the parent
    completes, it did write that line and its last line is
    "fork() return = <pid>". *)
Theorem lines_of_the_demonstrator (e : os) (g : locals) (line : string) :
  let P := parent (run e g) in
  (In line (written STDOUT (f_log P)) ->
   (exists tag, In tag tags
                /\ line = checkpoint tag (id_pid (os_self e))
                                     (id_ppid (os_self e)))
   \/ line = fork_return (os_fork e))
  /\ (In line (written STDOUT (log_of (child (run e g)))) ->
      exists tag, In tag tags
                  /\ line = checkpoint tag (id_pid (os_child e))
                                       (id_ppid (os_child e)))
  /\ (before_wait (f_log P) = Some line ->
      line = checkpoint "after (pid == 0)" (id_pid (os_self e))
                        (id_ppid (os_self e)))
  /\ (f_end P = Exit EXIT_SUCCESS ->
      before_wait (f_log P)
      = Some (checkpoint "after (pid == 0)" (id_pid (os_self e))
                         (id_ppid (os_self e)))
      /\ last (written STDOUT (f_log P)) "" = fork_return (os_fork e)).
Proof.
intros P. subst P. rewrite run_paths. cbn [paths parent child].
rewrite parent_before_wait, parent_stdout. cbv zeta.
assert (T : forall tag s, In tag tags ->
            exists tag', In tag' tags
                         /\ checkpoint tag (id_pid s) (id_ppid s)
                            = checkpoint tag' (id_pid s) (id_ppid s))
  by (intros tag s I; now exists tag).
repeat match goal with |- _ /\ _ => split end.
- intros I.
  destruct (_ =? -1); [destruct I|].
  destruct I as [<- | I]; [left; apply T; cbn; tauto|].
  destruct (_ =? -1); [destruct I|].
  destruct I as [<- | I]; [left; apply T; cbn; tauto|].
  destruct (_ =? 0).
  + destruct I as [<- | []]. left; apply T; cbn; tauto.
  + destruct I as [<- | I]; [left; apply T; cbn; tauto|].
    destruct (passes e g); [|destruct I].
    destruct I as [<- | [<- | []]]; [left; apply T; cbn; tauto|].
    now right.
- intros I. destruct (forked e); [|destruct I]. cbn [log_of] in I.
  rewrite kid_stdout in I.
  destruct I as [<- | [<- | []]]; apply T; cbn; tauto.
- destruct (_ || _); [discriminate|]. now intros [= <-].
- intros S. apply success_inv in S as (Fk & Z0 & Ps).
  apply forked_spec in Fk as [Hp Hf].
  rewrite Ps, (proj2 (Z.eqb_neq _ _) Hp), (proj2 (Z.eqb_neq _ _) Hf),
          (proj2 (Z.eqb_neq _ _) Z0).
  split; reflexivity.
Qed.

Lemma lines_of_the_demonstrator_witness :
  before_wait (f_log (parent (run header_os junk)))
  = Some (checkpoint "after (pid == 0)" 16026 14381).
Proof.
assert (S : f_end (parent (run header_os junk)) = Exit EXIT_SUCCESS)
  by (now vm_compute).
destruct (lines_of_the_demonstrator header_os junk "") as (_ & _ & _ & X).
exact (proj1 (X S)).
Defined.

(** C3 as stated fails: in the run of the header of fork.c the line the
    parent writes right before waiting starts with "after (pid == 0)"; it
    is not tagged "after (child path)". *)
Lemma line_before_wait_is_not_tagged_child_path :
  exists line,
    before_wait (f_log (parent (run header_os junk))) = Some line
    /\ tagged "after (pid == 0)" line = true
    /\ tagged "after (child path)" line = false.
Proof.
exists (checkpoint "after (pid == 0)" 16026 14381).
split; [|split]; now vm_compute.
Qed.

End ForkFacts.

(* ================================================================== *)
(** * The busy counter: further properties *)
(* ================================================================== *)

Module CountInfiniteExtras.
Import C CFacts CountInfinite CountInfiniteFacts.

#[local] Opaque run_from.

(** X3.  The output only grows, by at most one line per increment: what
    was printed after [n] increments is still the beginning of the output
    [m] increments later, and at most [m] lines were added. *)
Theorem output_only_grows (n m : N) :
  exists more,
    stdout (run (m + n)) = (stdout (run n) ++ more)%list
    /\ (length more <= N.to_nat m)%nat.
Proof.
induction m as [|m IH] using N.peano_ind.
- exists []. rewrite app_nil_r. now split.
- destruct IH as (more & E & L).
  rewrite N.add_succ_l. unfold run in *. rewrite run_from_succ.
  unfold body. destruct (_ =? 0); cbn [stdout].
  + eexists. rewrite E, <- app_assoc. split; [reflexivity|].
    rewrite length_app. cbn [length]. lia.
  + exists more. split; [exact E | lia].
Qed.

End CountInfiniteExtras.

(* ================================================================== *)
(** * The fork demonstrator: further properties *)
(* ================================================================== *)

Module ForkExtras.
Import C CFacts Fork ForkFacts.
Open Scope string_scope.
Open Scope Z_scope.

(** ** The line buffer in general *)

(** [cut] loses nothing, and what it keeps back holds no newline. *)
Lemma cut_spec (s : string) :
  has_nl (snd (cut s)) = false
  /\ match fst (cut s) with
     | Some w => w ++ snd (cut s) = s
     | None => snd (cut s) = s
     end.
Proof.
induction s as [|c s [Hn Hs]]; [now split|].
cbn [cut]. destruct (cut s) as [[w|] p]; cbn [fst snd] in *.
- split; [assumption|]. cbn [append]. now rewrite Hs.
- destruct (is_nl c) eqn:C; cbn [fst snd].
  + split; [assumption|]. cbn [append]. now rewrite Hs.
  + split; [|now rewrite Hs].
    rewrite has_nl_cons, C, Hn. reflexivity.
Qed.


(** ** Extra properties *)

(** X5.  [print_pid], whatever its argument and whatever text is pending
    in the buffer: it asks [getpid] and [getppid] once each (in whichever
    order) and nothing else, the text it hands to the descriptor is, end to
    end, the pending text followed by the checkpoint line, nothing goes to
    [stderr], and it leaves the buffer empty. *)
Theorem print_pid_completes_its_line
        (e : os) (root : bool) (msg : string) (s : image)
        (k : res unit * image -> prog (ending * image)) (st : kernel) :
  exists evs,
    exec e root (bindP (print_pid msg s) k) st
    = exec e root (k (Val tt, set_buf "" s))
           (mkKernel (k_log st ++ evs) (k_kid st) (k_zombie st))
    /\ String.concat "" (written STDOUT evs)
       = stdout_buf s
         ++ checkpoint msg (id_pid (me e root)) (id_ppid (me e root))
    /\ written STDERR evs = []
    /\ calls is_getpid evs = 1%nat
    /\ calls is_getppid evs = 1%nat
    /\ calls is_fork evs = 0%nat
    /\ calls is_wait evs = 0%nat
    /\ In (EvGetpid (id_pid (me e root))) evs
    /\ In (EvGetppid (id_ppid (me e root))) evs.
Proof.
set (p := id_pid (me e root)). set (q := id_ppid (me e root)).
set (T := "pid=" ++ dec p ++ " ppid=" ++ dec q).
assert (HT : has_nl T = false)
  by (subst T; now rewrite !has_nl_app, !has_nl_dec).
assert (ET : "pid=" ++ dec p ++ " ppid=" ++ dec q ++ nl = T ++ nl)
  by (subst T; now rewrite !append_assoc).
destruct (cut_spec (stdout_buf s ++ msg ++ " ")) as [Hn Hw].
assert (Second : forall s', stdout_buf s' = snd (cut (stdout_buf s ++ msg ++ " ")) ->
          printf (T ++ nl) s'
          = Vis (SysWrite STDOUT (stdout_buf s' ++ T ++ nl))
                (fun _ => Ret (Val tt, set_buf "" s'))).
{ intros s' E. apply printf_line; [now rewrite E | exact HT]. }
unfold print_pid, bind, printf at 1.
destruct (cut (stdout_buf s ++ msg ++ " ")) as [[w|] p1]; cbn [fst snd] in *.
- exists [EvWrite STDOUT w; EvGetpid p; EvGetppid q;
          EvWrite STDOUT (p1 ++ T ++ nl)].
  cbn [bindP fst snd sys exec]. fold p q. rewrite ET.
  rewrite (Second (set_buf p1 s)) by reflexivity.
  cbn [bindP fst snd exec record k_log k_kid k_zombie stdout_buf set_buf vars].
  split; [|split; [|repeat split; cbn [In]; tauto]].
  + unfold record. cbn [k_log k_kid k_zombie]. now rewrite <- !app_assoc.
  + cbn [written String.concat].
    transitivity ((w ++ p1) ++ T ++ nl); [now rewrite append_assoc|].
    rewrite Hw. unfold checkpoint. rewrite <- ET.
    now rewrite !append_assoc.
- exists [EvGetpid p; EvGetppid q; EvWrite STDOUT (p1 ++ T ++ nl)].
  cbn [bindP fst snd sys exec]. fold p q. rewrite ET.
  rewrite (Second (set_buf p1 s)) by reflexivity.
  cbn [bindP fst snd exec record k_log k_kid k_zombie stdout_buf set_buf vars].
  split; [|split; [|repeat split; cbn [In]; tauto]].
  + unfold record. cbn [k_log k_kid k_zombie]. now rewrite <- !app_assoc.
  + cbn [written String.concat].
    rewrite Hw. unfold checkpoint. rewrite <- ET.
    now rewrite !append_assoc.
Qed.


(** [print_pid] with a newline inside its argument: the first [printf]
    already completes a line, which is written at once; the rest of the
    argument opens the checkpoint line. *)
Example print_pid_tag_with_newline :
  written STDOUT
    (f_log (fst (exec header_os true
                   (bindP (print_pid ("a" ++ nl ++ "b") (initial junk))
                          (fun rs => Ret (Exit 0, snd rs)))
                   (boot []))))
  = ["a" ++ nl; "b pid=16026 ppid=14381" ++ nl].
Proof. reflexivity. Qed.






(** X9.  Where [fork] made a child and the process is on the parent's
    path, the parent calls [fork] once and waits once, however the child
    ended, and that [wait] stored the status of the child's termination. *)
Theorem parent_reaps_child (e : os) (g : locals) (k : finished) :
  child (run e g) = Some k ->
  os_fork e <> 0 ->
  let log := f_log (parent (run e g)) in
  calls is_fork log = 1%nat
  /\ calls is_wait log = 1%nat
  /\ In (EvWait (Some (wstatus (termination_of e (f_end k))))) log.
Proof.
intros K Z0 log. subst log.
apply child_spec in K as [Fk ->]. rewrite parent_spec.
apply forked_spec in Fk as [Hp Hf].
unfold parent_path. cbv zeta.
rewrite (proj2 (Z.eqb_neq _ _) Hp), (proj2 (Z.eqb_neq _ _) Hf),
        (proj2 (Z.eqb_neq _ _) Z0).
fold (stored e g).
destruct (passes e g); [|destruct (WIFEXITED _)]; cbn [f_log];
  (split; [reflexivity|]); (split; [reflexivity|]);
  unfold prologue, asked; cbn [app In]; tauto.
Qed.

Lemma parent_reaps_child_witness :
  calls is_wait (f_log (parent (run same_pid_os junk))) = 1%nat.
Proof.
assert (K : child (run same_pid_os junk)
            = Some (kid_path same_pid_os junk)) by (now vm_compute).
assert (Z0 : os_fork same_pid_os <> 0) by discriminate.
exact (proj1 (proj2 (parent_reaps_child same_pid_os junk _ K Z0))).
Defined.


(** ** The terminal in time *)

Lemma until_app (stop : event -> bool) (log : list event) :
  (fst (until stop log) ++ snd (until stop log))%list = log.
Proof.
induction log as [|ev l IH]; [reflexivity|].
cbn [until]. destruct (stop ev); [reflexivity|].
destruct (until stop l) as [a b]. cbn [fst snd app] in *. now rewrite IH.
Qed.

Lemma interleaving_app_head {A : Type} (p l r m : list A) :
  interleaving l r m -> interleaving (p ++ l) r (p ++ m).
Proof.
intros H. induction p as [|x p IH]; [exact H|].
cbn [app]. now apply il_left.
Qed.

Lemma interleaving_app_tail {A : Type} (l r m s : list A) :
  interleaving l r m -> interleaving (l ++ s) r (m ++ s).
Proof.
induction 1 as [| x l r m _ IH | x l r m _ IH]; cbn [app].
- induction s as [|x s IH]; [apply il_nil | now apply il_left].
- now apply il_left.
- now apply il_right.
Qed.

(** What the terminal shows in time is one of the interleavings of the
    lines of the two processes. *)
Lemma screen_terminal (o : outcome) (t : list string) :
  screen o t -> terminal o t.
Proof.
unfold screen, terminal.
pose proof (until_app is_fork (f_log (parent o))) as E1.
destruct (until is_fork (f_log (parent o))) as [a rest].
pose proof (until_app is_wait rest) as E2.
destruct (until is_wait rest) as [b c]. cbn [fst snd] in *.
intros (m & I & ->).
rewrite <- E1, <- E2, !written_app.
now apply interleaving_app_head, interleaving_app_tail.
Qed.

(** The screens of a successful run: the "before fork" line, then the two
    lines of the parent and the two lines of the child in any interleaving,
    then the "after wait" line and the last line of [main]. *)
Lemma screen_of_success (e : os) (g : locals) (t : list string) :
  f_end (parent (run e g)) = Exit EXIT_SUCCESS ->
  let p := id_pid (os_self e) in
  let q := id_ppid (os_self e) in
  let c := id_pid (os_child e) in
  let cq := id_ppid (os_child e) in
  screen (run e g) t <->
  exists m,
    interleaving [checkpoint "after fork" p q; checkpoint "after (pid == 0)" p q]
                 [checkpoint "after fork" c cq;
                  checkpoint "inside (pid == 0)" c cq] m
    /\ t = (checkpoint "before fork" p q
            :: m ++ [checkpoint "after wait" p q; fork_return (os_fork e)])%list.
Proof.
rewrite run_paths. cbn [paths parent child].
intros S. apply success_inv in S as (Fk & Z0 & Ps).
unfold screen, paths. cbn [parent child]. rewrite Fk. cbn [log_of].
rewrite kid_stdout.
apply forked_spec in Fk as [Hp Hf].
unfold parent_path. cbv zeta.
rewrite Ps, (proj2 (Z.eqb_neq _ _) Hp), (proj2 (Z.eqb_neq _ _) Hf),
        (proj2 (Z.eqb_neq _ _) Z0).
cbn [f_log]. unfold prologue, asked.
cbn [app until is_fork is_wait written]. reflexivity.
Qed.

(** The output shown in the header of fork.c is a screen of its run. *)
Example header_screen :
  screen (run header_os junk)
    [checkpoint "before fork" 16026 14381;
     checkpoint "after fork" 16031 16026;
     checkpoint "inside (pid == 0)" 16031 16026;
     checkpoint "after fork" 16026 14381;
     checkpoint "after (pid == 0)" 16026 14381;
     checkpoint "after wait" 16026 14381;
     fork_return 16031].
Proof.
assert (S : f_end (parent (run header_os junk)) = Exit EXIT_SUCCESS)
  by (now vm_compute).
apply (screen_of_success header_os junk _ S).
exists [checkpoint "after fork" 16031 16026;
        checkpoint "inside (pid == 0)" 16031 16026;
        checkpoint "after fork" 16026 14381;
        checkpoint "after (pid == 0)" 16026 14381].
split; [|reflexivity].
apply il_right, il_right, il_left, il_left, il_nil.
Qed.

(** X10.  What [wait] guarantees: in a successful run, whatever the
    terminal shows in time has seven lines, begins with the "before fork"
    line, ends with the parent's "after wait" line followed by the last
    line of [main], and the child's "inside" line comes before that
    "after wait" line. *)
Theorem inside_comes_before_after_wait
        (e : os) (g : locals) (t : list string) :
  f_end (parent (run e g)) = Exit EXIT_SUCCESS ->
  screen (run e g) t ->
  let p := id_pid (os_self e) in
  let q := id_ppid (os_self e) in
  length t = 7%nat
  /\ (exists a b,
         t = (a ++ checkpoint "inside (pid == 0)" (id_pid (os_child e))
                              (id_ppid (os_child e))
                :: b ++ [checkpoint "after wait" p q;
                         fork_return (os_fork e)])%list
         /\ hd_error a = Some (checkpoint "before fork" p q)).
Proof.
intros S Sc p q. apply (screen_of_success e g t S) in Sc as (m & I & ->).
fold p q in I |- *.
assert (L : length m = 4%nat).
{ clear - I. remember [_; _] as l eqn:El. remember [_; _] as r eqn:Er in I.
  assert (G : forall (A : Type) (l r m : list A),
            interleaving l r m -> length m = (length l + length r)%nat).
  { clear. induction 1; cbn [length]; lia. }
  rewrite (G _ _ _ _ I). now subst. }
split; [cbn [length]; rewrite length_app, L; reflexivity|].
assert (M : In (checkpoint "inside (pid == 0)" (id_pid (os_child e))
                           (id_ppid (os_child e))) m).
{ clear - I.
  assert (G : forall (A : Type) (l r m : list A) (x : A),
            interleaving l r m -> In x r -> In x m).
  { clear. induction 1; cbn [In]; tauto. }
  apply (G _ _ _ _ _ I). cbn [In]. tauto. }
apply in_split in M as (m1 & m2 & ->).
exists (checkpoint "before fork" p q :: m1), m2. split.
- cbn [app]. now rewrite <- app_assoc.
- reflexivity.
Qed.

Lemma inside_comes_before_after_wait_witness :
  length
    [checkpoint "before fork" 16026 14381;
     checkpoint "after fork" 16031 16026;
     checkpoint "inside (pid == 0)" 16031 16026;
     checkpoint "after fork" 16026 14381;
     checkpoint "after (pid == 0)" 16026 14381;
     checkpoint "after wait" 16026 14381;
     fork_return 16031] = 7%nat.
Proof.
assert (S : f_end (parent (run header_os junk)) = Exit EXIT_SUCCESS)
  by (now vm_compute).
exact (proj1 (inside_comes_before_after_wait header_os junk _ S
                                             header_screen)).
Defined.

(** X11.  What is left open: in a successful run the parent's
    "after (pid == 0)" line may reach the terminal before the child has
    written anything, or after the child's "inside" line; both orders are
    screens of the run. *)
Theorem after_branch_before_or_after_child (e : os) (g : locals) :
  f_end (parent (run e g)) = Exit EXIT_SUCCESS ->
  let p := id_pid (os_self e) in
  let q := id_ppid (os_self e) in
  let c := id_pid (os_child e) in
  let cq := id_ppid (os_child e) in
  screen (run e g)
    [checkpoint "before fork" p q;
     checkpoint "after fork" p q;
     checkpoint "after (pid == 0)" p q;
     checkpoint "after fork" c cq;
     checkpoint "inside (pid == 0)" c cq;
     checkpoint "after wait" p q;
     fork_return (os_fork e)]
  /\ screen (run e g)
       [checkpoint "before fork" p q;
        checkpoint "after fork" c cq;
        checkpoint "inside (pid == 0)" c cq;
        checkpoint "after fork" p q;
        checkpoint "after (pid == 0)" p q;
        checkpoint "after wait" p q;
        fork_return (os_fork e)].
Proof.
intros S p q c cq. split; apply (screen_of_success e g _ S).
- exists [checkpoint "after fork" p q; checkpoint "after (pid == 0)" p q;
          checkpoint "after fork" c cq; checkpoint "inside (pid == 0)" c cq].
  split; [|reflexivity].
  apply il_left, il_left, il_right, il_right, il_nil.
- exists [checkpoint "after fork" c cq; checkpoint "inside (pid == 0)" c cq;
          checkpoint "after fork" p q; checkpoint "after (pid == 0)" p q].
  split; [|reflexivity].
  apply il_right, il_right, il_left, il_left, il_nil.
Qed.

Lemma after_branch_before_or_after_child_witness :
  screen (run header_os junk)
    [checkpoint "before fork" 16026 14381;
     checkpoint "after fork" 16031 16026;
     checkpoint "inside (pid == 0)" 16031 16026;
     checkpoint "after fork" 16026 14381;
     checkpoint "after (pid == 0)" 16026 14381;
     checkpoint "after wait" 16026 14381;
     fork_return 16031].
Proof.
assert (S : f_end (parent (run header_os junk)) = Exit EXIT_SUCCESS)
  by (now vm_compute).
exact (proj2 (after_branch_before_or_after_child header_os junk S)).
Defined.

End ForkExtras.
